(** * A shallow embedding of the RAG pipeline of [src/src.ts]

    The class [RAGImplementation] talks to three remote services (the
    Qdrant vector store, the Google embedding endpoint, the Groq chat
    endpoint), to the langchain text splitter and to the system clock.
    Its methods are embedded as programs of a small free monad [Prog]
    whose nodes are the requests the code issues; an environment
    answers the requests and [run] records them in a trace, so that
    statements such as "no chat request is issued" are statements about
    that trace, for every environment. *)

From Stdlib Require Import String Ascii List ZArith Lia Bool Arith.
From Stdlib Require Import DecimalString Sorted.
From Equations Require Import Equations.
Import ListNotations.

Set Implicit Arguments.

(** ** JavaScript strings

    A JavaScript string is a sequence of UTF-16 code units.  The model
    keeps the code units 0..255 (the Latin-1 range), one [ascii] each,
    which contains every character of the literals of [src/src.ts]. *)

Module JsString.
Local Open Scope string_scope.

(** [!s] for a string: the empty string is the only falsy string. *)
Definition falsy (s : string) : bool := (s =? EmptyString).

(** [x || d] where [x] is a string or [undefined]. *)
Definition or_else (x : option string) (d : string) : string :=
  match x with
  | Some s => if falsy s then d else s
  | None => d
  end.

(** WhiteSpace and LineTerminator code units below 256, the ones
    [String.prototype.trim] strips: TAB, LF, VT, FF, CR, SP, NBSP. *)
Definition isWhiteSpace (c : ascii) : bool :=
  let n := nat_of_ascii c in
  (((9 <=? n) && (n <=? 13)) || (n =? 32) || (n =? 160))%nat.

Fixpoint trimStart (s : string) : string :=
  match s with
  | EmptyString => EmptyString
  | String c r => if isWhiteSpace c then trimStart r else s
  end.

Fixpoint trimEnd (s : string) : string :=
  match s with
  | EmptyString => EmptyString
  | String c r =>
      let r' := trimEnd r in
      if isWhiteSpace c && falsy r' then EmptyString else String c r'
  end.

(** [s.trim()] *)
Definition trim (s : string) : string := trimEnd (trimStart s).

Fixpoint startsWith (pat s : string) : bool :=
  match pat, s with
  | EmptyString, _ => true
  | String _ _, EmptyString => false
  | String a p, String b r => Ascii.eqb a b && startsWith p r
  end.

Fixpoint drop (n : nat) (s : string) : string :=
  match n, s with
  | O, _ => s
  | S _, EmptyString => EmptyString
  | S m, String _ r => drop m r
  end.

(** The leftmost match of [pat] in [s]: the text before it and the text
    after it, [None] when [pat] does not occur. *)
Fixpoint splitAtFirst (pat s : string) : option (string * string) :=
  if startsWith pat s then Some (EmptyString, drop (String.length pat) s)
  else
    match s with
    | EmptyString => None
    | String c r =>
        match splitAtFirst pat r with
        | Some (before, after) => Some (String c before, after)
        | None => None
        end
    end.

(** GetSubstitution of ECMAScript for a string pattern (no capture
    groups): in the replacement text [$$] stands for a dollar sign,
    [$&] for the matched text, [$`] for the text before the match and
    [$'] for the text after it; every other character stands for
    itself. *)
Fixpoint getSubstitution (matched before after templ : string) : string :=
  match templ with
  | EmptyString => EmptyString
  | String "$" (String "$" r) =>
      String "$" (getSubstitution matched before after r)
  | String "$" (String "&" r) =>
      matched ++ getSubstitution matched before after r
  | String "$" (String "`" r) =>
      before ++ getSubstitution matched before after r
  | String "$" (String "'" r) =>
      after ++ getSubstitution matched before after r
  | String c r => String c (getSubstitution matched before after r)
  end.

(** [s.replace(pat, repl)] with a string pattern: only the leftmost
    match is replaced. *)
Definition replace (s pat repl : string) : string :=
  match splitAtFirst pat s with
  | Some (before, after) =>
      before ++ getSubstitution pat before after repl ++ after
  | None => s
  end.

(** [xs.join(sep)] *)
Definition join (sep : string) (xs : list string) : string :=
  String.concat sep xs.

(** A number that is an integer, printed by a template literal. *)
Definition numberToString (n : Z) : string :=
  NilZero.string_of_int (Z.to_int n).

(** [occurs pat s]: [pat] matches somewhere in [s]. *)
Fixpoint occurs (pat s : string) : bool :=
  startsWith pat s ||
  match s with
  | EmptyString => false
  | String _ r => occurs pat r
  end.

(** The character [c] appears in [s]. *)
Fixpoint mentions (c : ascii) (s : string) : bool :=
  match s with
  | EmptyString => false
  | String d r => Ascii.eqb c d || mentions c r
  end.

Fixpoint allWhiteSpace (s : string) : bool :=
  match s with
  | EmptyString => true
  | String c r => isWhiteSpace c && allWhiteSpace r
  end.

End JsString.

Import JsString.

(** ** Errors

    A thrown value: its [message] and the [status] property that the
    Qdrant client sets on HTTP errors.  [new Error(msg)] has no
    [status]. *)

Record Error := mkError { message : string; status : option Z }.

Definition newError (msg : string) : Error :=
  {| message := msg; status := None |}.

(** Reading a property of [undefined], as in [embeds[0].length] on an
    empty array. *)
Definition typeError : Error :=
  newError "TypeError: Cannot read properties of undefined".

(** ** What travels to and from the services *)

(** A vector component.  The pipeline never computes with components, it
    only copies them, so a component is kept as its 64-bit pattern. *)
Definition float64 := N.
Definition Vector := list float64.

Inductive Distance := Cosine | Euclid | Dot | Manhattan.

Record VectorParams := { size : Z; distance : Distance }.

(** The part of [getCollection]'s answer the code reads:
    [collection.config.params.vectors]. *)
Record CollectionInfo := { vectors : option VectorParams }.

Record CreateParams := {
  cp_vectors : VectorParams;
  default_segment_number : Z;
  replication_factor : Z;
  write_consistency_factor : Z
}.

(** The payload of a point.  [timestamp] is the time value whose ISO
    rendering the code stores. *)
Record Payload := { text : string; timestamp : Z; chunkIndex : nat }.

Record Point := { id : Z; vector : Vector; payload : Payload }.

Record UpsertRequest := { points : list Point; wait : bool }.

Record SearchRequest := { query_vector : Vector; limit : Z }.

(** A search hit: [hit.payload?.text] is [None] when the payload or its
    [text] is absent. *)
Record Hit := { hit_id : Z; hit_text : option string }.

Record ChatMessage := { role : string; content : string }.

Record ChatRequest := { messages : list ChatMessage; model : string }.

(** The assistant's message of a choice; its [content] may be [null]. *)
Record AssistantMessage := { reply : option string }.

Record Choice := { choice_message : option AssistantMessage }.

Record Completion := { choices : list Choice }.

Record SplitterOptions := { chunkSize : Z; chunkOverlap : Z }.

(** ** Requests, programs and their runs *)

Inductive Request :=
| GetCollection (name : string)
| CreateCollection (name : string) (params : CreateParams)
| Upsert (name : string) (req : UpsertRequest)
| Search (name : string) (req : SearchRequest)
| EmbedQuery (input : string)
| ChatCreate (req : ChatRequest)
| SplitText (opts : SplitterOptions) (input : string).

Definition Response (r : Request) : Type :=
  match r with
  | GetCollection _ => CollectionInfo
  | CreateCollection _ _ => unit
  | Upsert _ _ => unit
  | Search _ _ => list Hit
  | EmbedQuery _ => Vector
  | ChatCreate _ => Completion
  | SplitText _ _ => list string
  end.

(** A settled promise: rejected with an error or fulfilled. *)
Definition Settled (A : Type) : Type := (Error + A)%type.

(** Programs: return, throw, await a request, read the clock (which
    cannot fail). *)
Inductive Prog (A : Type) : Type :=
| Ret (a : A)
| Throw (e : Error)
| Call (r : Request) (k : Settled (Response r) -> Prog A)
| Now (k : Z -> Prog A).

Arguments Ret {A} a.
Arguments Throw {A} e.
Arguments Call {A} r k.
Arguments Now {A} k.

Fixpoint bind {A B} (p : Prog A) (f : A -> Prog B) : Prog B :=
  match p with
  | Ret a => f a
  | Throw e => Throw e
  | Call r k => Call r (fun x => bind (k x) f)
  | Now k => Now (fun t => bind (k t) f)
  end.

(** [try { p } catch (error) { h error }] *)
Fixpoint tryCatch {A} (p : Prog A) (h : Error -> Prog A) : Prog A :=
  match p with
  | Ret a => Ret a
  | Throw e => h e
  | Call r k => Call r (fun x => tryCatch (k x) h)
  | Now k => Now (fun t => tryCatch (k t) h)
  end.

(** [await request]: a rejection is thrown. *)
Definition await (r : Request) : Prog (Response r) :=
  Call r (fun x => match x with inl e => Throw e | inr v => Ret v end).

Declare Scope prog_scope.
Delimit Scope prog_scope with prog.
Notation "x <- p ;; q" := (bind p (fun x => q))
  (at level 61, p at next level, right associativity) : prog_scope.
Notation "p ;; q" := (bind p (fun _ => q))
  (at level 61, right associativity) : prog_scope.
Open Scope prog_scope.

(** The answer of a request with its type forgotten, for the trace. *)
Inductive Answer :=
| Rejected (e : Error)
| GotCollection (c : CollectionInfo)
| Acknowledged
| GotHits (hits : list Hit)
| GotVector (v : Vector)
| GotCompletion (c : Completion)
| GotTexts (texts : list string).

Definition answerOf (r : Request) : Settled (Response r) -> Answer :=
  match r with
  | GetCollection _ => fun x =>
      match x with inl e => Rejected e | inr c => GotCollection c end
  | CreateCollection _ _ => fun x =>
      match x with inl e => Rejected e | inr _ => Acknowledged end
  | Upsert _ _ => fun x =>
      match x with inl e => Rejected e | inr _ => Acknowledged end
  | Search _ _ => fun x =>
      match x with inl e => Rejected e | inr h => GotHits h end
  | EmbedQuery _ => fun x =>
      match x with inl e => Rejected e | inr v => GotVector v end
  | ChatCreate _ => fun x =>
      match x with inl e => Rejected e | inr c => GotCompletion c end
  | SplitText _ _ => fun x =>
      match x with inl e => Rejected e | inr t => GotTexts t end
  end.

Inductive Event :=
| Requested (r : Request) (a : Answer)
| ClockRead (t : Z).

(** An environment: the outside world as a state, how it answers each
    request and what its clock shows. *)
Record Env := {
  World : Type;
  handle : forall r : Request, World -> Settled (Response r) * World;
  clock : World -> Z * World
}.

Fixpoint run (E : Env) {A} (p : Prog A) (w : World E)
  : Settled A * World E * list Event :=
  match p with
  | Ret a => (inr a, w, [])
  | Throw e => (inl e, w, [])
  | Call r k =>
      let (x, w1) := handle E r w in
      let '(res, w2, tr) := run E (k x) w1 in
      (res, w2, Requested r (answerOf r x) :: tr)
  | Now k =>
      let (t, w1) := clock E w in
      let '(res, w2, tr) := run E (k t) w1 in
      (res, w2, ClockRead t :: tr)
  end.

(** The requests of a trace, in the order they were issued. *)
Definition requestsOf (tr : list Event) : list Request :=
  flat_map (fun ev => match ev with Requested r _ => [r] | ClockRead _ => [] end) tr.

(** The clock readings of a trace, in order. *)
Definition clockReadings (tr : list Event) : list Z :=
  flat_map (fun ev => match ev with ClockRead t => [t] | Requested _ _ => [] end) tr.

(** ** The class [RAGImplementation] *)

Module Rag.
Local Open Scope string_scope.

(** [prompts?: { classification?: string; response?: string }], also the
    argument of [updatePrompts] ([Partial<typeof this.prompts>]): [None]
    is a field that is not supplied. *)
Record PartialPrompts := {
  new_classification : option string;
  new_response : option string
}.

(** [RAGConfig].  The four required fields are [option]s because the
    constructor itself tests for their absence. *)
Record RAGConfig := {
  googleApiKey : option string;
  qdrantUrl : option string;
  qdrantApiKey : option string;
  groqApiKey : option string;
  cfg_collectionName : option string;
  cfg_fallbackResponse : option string;
  cfg_prompts : option PartialPrompts
}.

Record Prompts := { classification : string; response : string }.

(** The three SDK clients hold what they were constructed with;
    constructing them sends nothing.  Whether a construction throws is
    up to the client library, see [ClientLibraries]. *)
Record QdrantClient := { qc_url : string; qc_apiKey : string }.
Record GoogleGenerativeAIEmbeddings := { ge_apiKey : string; ge_model : string }.
Record Groq := { groq_apiKey : string }.

Record RAGImplementation := {
  qdrantClient : QdrantClient;
  embeddings : GoogleGenerativeAIEmbeddings;
  groqClient : Groq;
  collectionName : string;
  fallbackResponse : string;
  prompts : Prompts
}.

(** [!x] for a required field: absent or empty. *)
Definition missing (x : option string) : bool :=
  match x with
  | Some s => falsy s
  | None => true
  end.

(** Reading a required field once the guard of the constructor has
    been passed. *)
Definition required (x : option string) : string :=
  match x with
  | Some s => s
  | None => EmptyString
  end.

Definition defaultClassificationPrompt : string :=
  "I am providing you a query, based on the query your work is detect whether that is related to marks, events or general information. " ++ String "010" (String "010" "Query: {query} ") ++ String "010" (String "010" "Please type marks, events or general based on the query. ") ++ String "010" (String "010" "Please type only one of the three words and dont type any other text. ") ++ String "010" (String "010" "If you are not sure, you can type general. Write your lowercase only, never put anything in uppercase").

Definition defaultResponsePrompt : string :=
  "You are a helpful assistant. Based on this context: " ++ String "034" "{context}" ++ String "034" ", please answer this question: " ++ String "034" "{query}" ++ String "034" ". If you cannot find a relevant answer in the context, please say so.".

(** [config.prompts?.classification] and [config.prompts?.response] *)
Definition promptField (f : PartialPrompts -> option string)
  (p : option PartialPrompts) : option string :=
  match p with
  | Some pp => f pp
  | None => None
  end.

(** The constructor apart from the client libraries: the guard, and the
    instance that is assigned when the three client constructors
    return.  [construct] below is the constructor with them. *)
Definition constructor (config : RAGConfig) : Settled RAGImplementation :=
  if missing (googleApiKey config) || missing (qdrantUrl config)
     || missing (qdrantApiKey config) || missing (groqApiKey config)
  then inl (newError "Required configuration parameters are missing")
  else
    inr {|
      qdrantClient := {| qc_url := required (qdrantUrl config);
                         qc_apiKey := required (qdrantApiKey config) |};
      embeddings := {| ge_apiKey := required (googleApiKey config);
                       ge_model := "text-embedding-004" |};
      groqClient := {| groq_apiKey := required (groqApiKey config) |};
      collectionName := or_else (cfg_collectionName config) "default_collection";
      fallbackResponse :=
        or_else (cfg_fallbackResponse config)
          "I could not find relevant information for your query.";
      prompts := {|
        classification :=
          or_else (promptField new_classification (cfg_prompts config))
            defaultClassificationPrompt;
        response :=
          or_else (promptField new_response (cfg_prompts config))
            defaultResponsePrompt
      |}
    |}.

(** What the constructors of the three SDK clients do with their
    arguments, as far as the class can tell: each either throws an
    error or builds its client.  The libraries are not part of the
    repository, so they are a parameter of the constructor:
    [qdrantThrows url apiKey] for [new QdrantClient({url, apiKey})],
    [embeddingsThrows apiKey model] for
    [new GoogleGenerativeAIEmbeddings({apiKey, model})] and
    [groqThrows apiKey] for [new Groq({apiKey})]. *)
Record ClientLibraries := {
  qdrantThrows : string -> string -> option Error;
  embeddingsThrows : string -> string -> option Error;
  groqThrows : string -> option Error
}.

(** The constructor, statement by statement: the guard, the three
    clients in the order of the source, then the fields. *)
Definition construct (sdk : ClientLibraries) (config : RAGConfig)
  : Settled RAGImplementation :=
  if missing (googleApiKey config) || missing (qdrantUrl config)
     || missing (qdrantApiKey config) || missing (groqApiKey config)
  then inl (newError "Required configuration parameters are missing")
  else
    match qdrantThrows sdk (required (qdrantUrl config))
                           (required (qdrantApiKey config)) with
    | Some error => inl error
    | None =>
        match embeddingsThrows sdk (required (googleApiKey config))
                                   "text-embedding-004" with
        | Some error => inl error
        | None =>
            match groqThrows sdk (required (groqApiKey config)) with
            | Some error => inl error
            | None =>
                inr {|
                  qdrantClient :=
                    {| qc_url := required (qdrantUrl config);
                       qc_apiKey := required (qdrantApiKey config) |};
                  embeddings :=
                    {| ge_apiKey := required (googleApiKey config);
                       ge_model := "text-embedding-004" |};
                  groqClient :=
                    {| groq_apiKey := required (groqApiKey config) |};
                  collectionName :=
                    or_else (cfg_collectionName config) "default_collection";
                  fallbackResponse :=
                    or_else (cfg_fallbackResponse config)
                      "I could not find relevant information for your query.";
                  prompts := {|
                    classification :=
                      or_else (promptField new_classification
                                           (cfg_prompts config))
                        defaultClassificationPrompt;
                    response :=
                      or_else (promptField new_response (cfg_prompts config))
                        defaultResponsePrompt
                  |}
                |}
            end
        end
    end.

(** [createRAG(config)], followed by whatever the caller does with the
    instance. *)
Definition createRAG {A} (sdk : ClientLibraries) (config : RAGConfig)
  (rest : RAGImplementation -> Prog A) : Prog A :=
  match construct sdk config with
  | inl e => Throw e
  | inr rag => rest rag
  end.

(** [completion.choices[0]?.message?.content] *)
Definition firstContent (completion : Completion) : option string :=
  match choices completion with
  | [] => None
  | c :: _ =>
      match choice_message c with
      | Some m => reply m
      | None => None
      end
  end.

Definition singleTurn (prompt : string) : ChatRequest :=
  {| messages := [ {| role := "user"; content := prompt |} ];
     model := "llama3-8b-8192" |}.

Definition classifyQuery (this : RAGImplementation) (query : string)
  : Prog string :=
  let prompt := replace (classification (prompts this)) "{query}" query in
  completion <- await (ChatCreate (singleTurn prompt)) ;;
  Ret (or_else (firstContent completion) "general").

Definition creation (vectorSize : Z) : CreateParams :=
  {| cp_vectors := {| size := vectorSize; distance := Cosine |};
     default_segment_number := 2;
     replication_factor := 2;
     write_consistency_factor := 1 |}.

(** [!vectors || vectors.size !== vectorSize] *)
Definition sizeDiffers (collection : CollectionInfo) (vectorSize : Z) : bool :=
  match vectors collection with
  | None => true
  | Some v => negb (size v =? vectorSize)%Z
  end.

Definition is404 (error : Error) : bool :=
  match status error with
  | Some s => (s =? 404)%Z
  | None => false
  end.

Definition ensureCollection (this : RAGImplementation) (vectorSize : Z)
  : Prog unit :=
  tryCatch
    (collection <- await (GetCollection (collectionName this)) ;;
     if sizeDiffers collection vectorSize
     then Throw (newError ("Vector size mismatch. Expected: "
                           ++ numberToString vectorSize))
     else Ret tt)
    (fun error =>
       if is404 error
       then await (CreateCollection (collectionName this) (creation vectorSize))
       else Throw error).

(** [texts.map(text => embedQuery(text))]: every request is issued, in
    the order of the texts, whatever the answers are. *)
Fixpoint embedEach (texts : list string) : Prog (list (Settled Vector)) :=
  match texts with
  | [] => Ret []
  | t :: rest =>
      Call (EmbedQuery t) (fun x => xs <- embedEach rest ;; Ret (x :: xs))
  end.

(** [Promise.all]: the values when every promise is fulfilled, else a
    rejection (here the one of the leftmost rejected promise). *)
Fixpoint promiseAll {A} (settled : list (Settled A)) : Prog (list A) :=
  match settled with
  | [] => Ret []
  | inl e :: _ => Throw e
  | inr v :: rest => vs <- promiseAll rest ;; Ret (v :: vs)
  end.

(** [documentTexts.map((text, i) => ({id: Date.now() + i, ...}))] from
    ordinal [i] on: per chunk one clock read for the identifier, the
    copy of [embeds[i]], one clock read for the timestamp. *)
Fixpoint makePoints (embeds : list Vector) (texts : list string) (i : nat)
  : Prog (list Point) :=
  match texts with
  | [] => Ret []
  | t :: rest =>
      Now (fun now =>
        match nth_error embeds i with
        | None => Throw typeError
        | Some v =>
            Now (fun stamp =>
              ps <- makePoints embeds rest (S i) ;;
              Ret ({| id := now + Z.of_nat i;
                      vector := v;
                      payload := {| text := trim t;
                                    timestamp := stamp;
                                    chunkIndex := i |} |} :: ps))
        end)
  end.

(** [xs.slice(from, to)] for indices that are not negative. *)
Definition slice {A} (from to : nat) (xs : list A) : list A :=
  firstn (to - from) (skipn from xs).

Definition batchSize : nat := 10.

(** The [for] loop of [createVectorStore], from index [i] on. *)
Equations upsertFrom (name : string) (pts : list Point) (i : nat)
  : Prog unit by wf (length pts - i) lt :=
upsertFrom name pts i with lt_dec i (length pts) => {
  | left _ =>
      await (Upsert name {| points := slice i (i + batchSize) pts;
                            wait := true |}) ;;
      upsertFrom name pts (i + batchSize)
  | right _ => Ret tt
}.
Next Obligation. unfold batchSize. lia. Qed.

Definition splitterOptions : SplitterOptions :=
  {| chunkSize := 1000; chunkOverlap := 200 |}.

Definition createVectorStore (this : RAGImplementation) (input : string)
  : Prog unit :=
  if falsy (trim input)
  then Throw (newError "No text provided for vector store creation")
  else
    documentTexts <- await (SplitText splitterOptions input) ;;
    settled <- embedEach documentTexts ;;
    embeds <- promiseAll settled ;;
    match embeds with
    | [] => Throw typeError
    | first :: _ =>
        ensureCollection this (Z.of_nat (length first)) ;;
        pts <- makePoints embeds documentTexts 0 ;;
        upsertFrom (collectionName this) pts 0
    end.

(** [hit.payload?.text || ''] *)
Definition hitText (hit : Hit) : string := or_else (hit_text hit) EmptyString.

Definition responsePrompt (this : RAGImplementation)
  (searchResults : list Hit) (userInput : string) : string :=
  let context := join " " (map hitText searchResults) in
  replace (replace (response (prompts this)) "{context}" context)
          "{query}" userInput.

Definition getBotResponse (this : RAGImplementation) (userInput : string)
  : Prog string :=
  queryEmbed <- await (EmbedQuery userInput) ;;
  searchResults <- await (Search (collectionName this)
                            {| query_vector := queryEmbed; limit := 3 |}) ;;
  match searchResults with
  | [] => Ret (fallbackResponse this)
  | _ :: _ =>
      completion <- await (ChatCreate
                             (singleTurn (responsePrompt this searchResults userInput))) ;;
      Ret (or_else (firstContent completion) (fallbackResponse this))
  end.

Record RAGResponse := { rr_response : string; rr_category : string }.

(** [processQuery]: the [catch] block writes the error to the console
    and throws it again. *)
Definition processQuery (this : RAGImplementation)
  (contextText query : string) : Prog RAGResponse :=
  tryCatch
    (category <- classifyQuery this query ;;
     createVectorStore this contextText ;;
     answer <- getBotResponse this query ;;
     Ret {| rr_response := answer; rr_category := category |})
    (fun error => Throw error).

(** [{...this.prompts, ...newPrompts}] *)
Definition updatePrompts (this : RAGImplementation)
  (newPrompts : PartialPrompts) : RAGImplementation :=
  {| qdrantClient := qdrantClient this;
     embeddings := embeddings this;
     groqClient := groqClient this;
     collectionName := collectionName this;
     fallbackResponse := fallbackResponse this;
     prompts := {|
       classification :=
         match new_classification newPrompts with
         | Some s => s
         | None => classification (prompts this)
         end;
       response :=
         match new_response newPrompts with
         | Some s => s
         | None => response (prompts this)
         end
     |}
  |}.

End Rag.

(** ** Vocabulary of the statements *)

Import Rag.
Local Open Scope string_scope.

(** A required field that is missing or empty. *)
Definition absent (x : option string) : Prop :=
  x = None \/ x = Some EmptyString.

(** The instances a caller can hold: built by the constructor, then
    changed by [updatePrompts] any number of times. *)
Inductive Reachable : RAGImplementation -> Prop :=
| Constructed (config : RAGConfig) (this : RAGImplementation) :
    constructor config = inr this -> Reachable this
| Updated (this : RAGImplementation) (newPrompts : PartialPrompts) :
    Reachable this -> Reachable (updatePrompts this newPrompts).

(** The [k]-th batch of the loop: [pts.slice(10 k, 10 k + 10)]. *)
Definition batch (k : nat) (pts : list Point) : list Point :=
  slice (k * batchSize) (k * batchSize + batchSize) pts.

(** How many batches a list of points gives. *)
Definition batchCount (pts : list Point) : nat :=
  (length pts + 9) / 10.

(** The upsert of batch [k], acknowledged by the store. *)
Definition acknowledged (name : string) (pts : list Point) (k : nat) : Event :=
  Requested (Upsert name {| points := batch k pts; wait := true |})
            Acknowledged.

(** ** An in-memory environment

    A vector store kept as an association list, a stub embedder, a stub
    chat provider and a stub splitter, of the kind a test of the
    pipeline would plug in.  The store accepts [quota] upserts and
    rejects the following ones, which gives runs that fail part way. *)

Module Fake.
Local Open Scope string_scope.

Record Stored := { info : CollectionInfo; contents : list Point }.

Record FakeWorld := {
  store : list (string * Stored);
  time : Z;
  tick : Z;
  quota : nat;
  splitter : string -> list string;
  chat : ChatRequest -> Completion
}.

Fixpoint lookup (name : string) (m : list (string * Stored)) : option Stored :=
  match m with
  | [] => None
  | (k, v) :: rest => if (k =? name) then Some v else lookup name rest
  end.

Fixpoint put (name : string) (v : Stored) (m : list (string * Stored))
  : list (string * Stored) :=
  match m with
  | [] => [(name, v)]
  | (k, u) :: rest =>
      if (k =? name) then (k, v) :: rest else (k, u) :: put name v rest
  end.

(** Insert-or-replace of one point, by identifier. *)
Fixpoint putPoint (p : Point) (ps : list Point) : list Point :=
  match ps with
  | [] => [p]
  | q :: rest => if (id q =? id p)%Z then p :: rest else q :: putPoint p rest
  end.

Definition notFound : Error :=
  {| message := "Not found"; status := Some 404%Z |}.

Definition unavailable : Error :=
  {| message := "Service unavailable"; status := Some 503%Z |}.

Definition withStore (w : FakeWorld) (m : list (string * Stored)) : FakeWorld :=
  {| store := m; time := time w; tick := tick w; quota := quota w;
     splitter := splitter w; chat := chat w |}.

Definition spend (w : FakeWorld) : FakeWorld :=
  {| store := store w; time := time w; tick := tick w; quota := pred (quota w);
     splitter := splitter w; chat := chat w |}.

Definition asHit (p : Point) : Hit :=
  {| hit_id := id p; hit_text := Some (text (payload p)) |}.

(** A three-dimensional stub embedding. *)
Definition embed (input : string) : Vector :=
  [N.of_nat (String.length input); 0%N; 1%N].

Definition fakeHandle (r : Request) : FakeWorld -> Settled (Response r) * FakeWorld :=
  match r with
  | GetCollection name => fun w =>
      match lookup name (store w) with
      | Some c => (inr (info c), w)
      | None => (inl notFound, w)
      end
  | CreateCollection name params => fun w =>
      (inr tt,
       withStore w (put name {| info := {| vectors := Some (cp_vectors params) |};
                                contents := [] |} (store w)))
  | Upsert name req => fun w =>
      match quota w, lookup name (store w) with
      | O, _ => (inl unavailable, w)
      | S _, None => (inl notFound, w)
      | S _, Some c =>
          (inr tt,
           withStore (spend w)
             (put name {| info := info c;
                          contents := fold_left (fun acc p => putPoint p acc)
                                        (points req) (contents c) |}
                (store w)))
      end
  | Search name req => fun w =>
      match lookup name (store w) with
      | Some c => (inr (map asHit (firstn (Z.to_nat (limit req)) (contents c))), w)
      | None => (inl notFound, w)
      end
  | EmbedQuery input => fun w => (inr (embed input), w)
  | ChatCreate req => fun w => (inr (chat w req), w)
  | SplitText _ input => fun w => (inr (splitter w input), w)
  end.

Definition fakeClock (w : FakeWorld) : Z * FakeWorld :=
  (time w,
   {| store := store w; time := time w + tick w; tick := tick w;
      quota := quota w; splitter := splitter w; chat := chat w |}).

Definition fakeEnv : Env :=
  {| World := FakeWorld; handle := fakeHandle; clock := fakeClock |}.

(** A chat stub that answers with a fixed content. *)
Definition says (content : option string) (_ : ChatRequest) : Completion :=
  {| choices := [ {| choice_message := Some {| reply := content |} |} ] |}.

(** A chat stub that answers with the prompt it was sent. *)
Definition echo (req : ChatRequest) : Completion :=
  {| choices :=
       [ {| choice_message :=
              Some {| reply := match messages req with
                               | m :: _ => Some (content m)
                               | [] => None
                               end |} |} ] |}.

(** A chat stub that returns no choice at all. *)
Definition silent (_ : ChatRequest) : Completion := {| choices := [] |}.

(** A splitter stub: one chunk per line. *)
Fixpoint lines (acc s : string) : list string :=
  match s with
  | EmptyString => [acc]
  | String c r =>
      if Ascii.eqb c "010" then acc :: lines EmptyString r
      else lines (acc ++ String c EmptyString) r
  end.

Definition emptyWorld (reply : ChatRequest -> Completion) : FakeWorld :=
  {| store := []; time := 1700000000000; tick := 0; quota := 100;
     splitter := lines EmptyString; chat := reply |}.

Definition sampleConfig : Rag.RAGConfig :=
  {| Rag.googleApiKey := Some "your-google-api-key";
     Rag.qdrantUrl := Some "your-qdrant-url";
     Rag.qdrantApiKey := Some "your-qdrant-api-key";
     Rag.groqApiKey := Some "your-groq-api-key";
     Rag.cfg_collectionName := Some "custom-collection";
     Rag.cfg_fallbackResponse := Some "Sorry, I could not find relevant information.";
     Rag.cfg_prompts := None |}.

Definition sampleRag : Rag.RAGImplementation :=
  {| Rag.qdrantClient := {| Rag.qc_url := "your-qdrant-url";
                            Rag.qc_apiKey := "your-qdrant-api-key" |};
     Rag.embeddings := {| Rag.ge_apiKey := "your-google-api-key";
                          Rag.ge_model := "text-embedding-004" |};
     Rag.groqClient := {| Rag.groq_apiKey := "your-groq-api-key" |};
     Rag.collectionName := "custom-collection";
     Rag.fallbackResponse := "Sorry, I could not find relevant information.";
     Rag.prompts := {| Rag.classification := Rag.defaultClassificationPrompt;
                       Rag.response := Rag.defaultResponsePrompt |} |}.

(** A point that carries nothing but its identifier. *)
Definition bare (n : Z) : Point :=
  {| id := n; vector := [];
     payload := {| text := EmptyString; timestamp := 0; chunkIndex := 0 |} |}.

Definition midterm : Point :=
  {| id := 1700000000000;
     vector := embed "Midterm exams are in October.";
     payload := {| text := "Midterm exams are in October.";
                   timestamp := 1700000000000; chunkIndex := 0 |} |}.

Definition sports : Point :=
  {| id := 1700000000001;
     vector := embed "Sports day is in November.";
     payload := {| text := "Sports day is in November.";
                   timestamp := 1700000000000; chunkIndex := 1 |} |}.

(** A world whose store holds the collection of [sampleRag], of
    dimension three, with the given points. *)
Definition worldWith (pts : list Point) (budget : nat)
  (reply : ChatRequest -> Completion) : FakeWorld :=
  {| store := [("custom-collection",
                {| info := {| vectors := Some {| size := 3; distance := Cosine |} |};
                   contents := pts |})];
     time := 1700000000000; tick := 0; quota := budget;
     splitter := lines EmptyString; chat := reply |}.

(** Templates with the context placeholder first, and a classification
    template that names the query twice. *)
Definition contextFirst : Rag.RAGImplementation :=
  Rag.updatePrompts sampleRag
    {| Rag.new_classification := Some "Q: {query} / again: {query}";
       Rag.new_response := Some "Context: {context} Question: {query}" |}.

(** A response template with the query placeholder first. *)
Definition queryFirst : Rag.RAGImplementation :=
  Rag.updatePrompts sampleRag
    {| Rag.new_classification := None;
       Rag.new_response := Some "Question: {query} Context: {context}" |}.

(** A stored chunk whose text happens to contain the query
    placeholder. *)
Definition manual : Hit :=
  {| hit_id := 7; hit_text := Some "Write {query} where the question goes." |}.

(** The client libraries as far as the checks of their constructors are
    known: the Qdrant client refuses a url that does not start with
    its scheme, the two other constructors accept any key that is
    not empty. *)
Definition qdrantRest : Rag.ClientLibraries :=
  {| Rag.qdrantThrows := fun url _ =>
       if startsWith "http://" url || startsWith "https://" url
       then None
       else Some (newError
         "The `url` param expected to contain a valid URL starting with a protocol (http:// or https://).");
     Rag.embeddingsThrows := fun _ _ => None;
     Rag.groqThrows := fun _ => None |}.

(** The configuration of the example with a url that names its
    scheme, and no collection name. *)
Definition reachableConfig : Rag.RAGConfig :=
  {| Rag.googleApiKey := Some "your-google-api-key";
     Rag.qdrantUrl := Some "https://your-cluster.qdrant.example:6333";
     Rag.qdrantApiKey := Some "your-qdrant-api-key";
     Rag.groqApiKey := Some "your-groq-api-key";
     Rag.cfg_collectionName := None;
     Rag.cfg_fallbackResponse := None;
     Rag.cfg_prompts := None |}.

End Fake.

(** ** An environment with outages

    The in-memory environment behind a switch: the requests picked by
    [down] are rejected with status 503 and leave the world as it is,
    the others are answered as before. *)

Module Flaky.
Import Fake.

Record FlakyWorld := { inner : FakeWorld; down : Request -> bool }.

Definition flakyHandle (r : Request) (w : FlakyWorld)
  : Settled (Response r) * FlakyWorld :=
  if down w r then (inl unavailable, w)
  else
    let (x, i) := fakeHandle r (inner w) in
    (x, {| inner := i; down := down w |}).

Definition flakyClock (w : FlakyWorld) : Z * FlakyWorld :=
  let (t, i) := fakeClock (inner w) in
  (t, {| inner := i; down := down w |}).

Definition flakyEnv : Env :=
  {| World := FlakyWorld; handle := flakyHandle; clock := flakyClock |}.

Definition chatDown (r : Request) : bool :=
  match r with ChatCreate _ => true | _ => false end.

Definition searchDown (r : Request) : bool :=
  match r with Search _ _ => true | _ => false end.

Definition lookupDown (r : Request) : bool :=
  match r with GetCollection _ => true | _ => false end.

(** The embedding endpoint fails on one text. *)
Definition embedDown (bad : string) (r : Request) : bool :=
  match r with EmbedQuery input => String.eqb input bad | _ => false end.

(** A world whose collection was created without a [vectors] entry. *)
Definition unsized : FakeWorld :=
  {| store := [("custom-collection"%string,
                {| info := {| vectors := None |}; contents := [] |})];
     time := 1700000000000; tick := 0; quota := 100;
     splitter := lines EmptyString; chat := silent |}.

(** A world whose splitter returns no chunk. *)
Definition chunkless : FakeWorld :=
  {| store := []; time := 1700000000000; tick := 0; quota := 100;
     splitter := fun _ => []; chat := silent |}.

(** A world whose collection was created for vectors of length 768. *)
Definition wide : FakeWorld :=
  {| store := [("custom-collection"%string,
                {| info := {| vectors := Some {| size := 768; distance := Cosine |} |};
                   contents := [] |})];
     time := 1700000000000; tick := 0; quota := 100;
     splitter := lines EmptyString; chat := silent |}.

(** A world whose clock advances by one millisecond at each reading. *)
Definition ticking : FakeWorld :=
  {| store := []; time := 1700000000000; tick := 1; quota := 100;
     splitter := lines EmptyString; chat := silent |}.

(** The in-memory world with the requests picked by [broken] down. *)
Definition outage (broken : Request -> bool) (w : FakeWorld) : FlakyWorld :=
  {| inner := w; down := broken |}.

End Flaky.

(** The points of the upserts that the store acknowledged, in the order
    of the trace. *)
Definition upserted (tr : list Event) : list Point :=
  flat_map (fun ev => match ev with
                      | Requested (Upsert _ req) Acknowledged => points req
                      | _ => []
                      end) tr.

(** The chunks that the splitter handed back, as the trace shows them. *)
Definition chunksOf (tr : list Event) : list string :=
  flat_map (fun ev => match ev with
                      | Requested (SplitText _ _) (GotTexts texts) => texts
                      | _ => []
                      end) tr.

(** The embeddings that were delivered, in the order of the trace. *)
Definition embeddingsOf (tr : list Event) : list Vector :=
  flat_map (fun ev => match ev with
                      | Requested (EmbedQuery _) (GotVector v) => [v]
                      | _ => []
                      end) tr.

(** The event of one embedding request and its answer. *)
Definition embedEvent (input : string) (x : Settled Vector) : Event :=
  Requested (EmbedQuery input)
            (match x with inl e => Rejected e | inr v => GotVector v end).

(** The elements of a list at the even positions: the first, the
    third, and so on. *)
Fixpoint everyOther {A} (l : list A) : list A :=
  match l with
  | [] => []
  | [a] => [a]
  | a :: _ :: rest => a :: everyOther rest
  end.

(** The events of [ensureCollection]: lookups and creations. *)
Definition provisioning (name : string) (ev : Event) : Prop :=
  match ev with
  | Requested (GetCollection n) _ => n = name
  | Requested (CreateCollection n _) _ => n = name
  | _ => False
  end.

(** What an indexing call on collection [name] may request: the split
    of [input], embeddings, and lookups, creations and awaited upserts
    on [name]. *)
Definition indexingRequest (name input : string) (r : Request) : Prop :=
  match r with
  | SplitText opts text => opts = splitterOptions /\ text = input
  | EmbedQuery _ => True
  | GetCollection n => n = name
  | CreateCollection n _ => n = name
  | Upsert n req => n = name /\ wait req = true
  | Search _ _ => False
  | ChatCreate _ => False
  end.

(** An event whose request, if it is one, is an indexing request. *)
Definition indexingEvent (name input : string) (ev : Event) : Prop :=
  match ev with
  | Requested r _ => indexingRequest name input r
  | ClockRead _ => True
  end.

(** [{...a, ...b}] on two partial template records. *)
Definition mergePrompts (a b : PartialPrompts) : PartialPrompts :=
  {| new_classification :=
       match new_classification b with
       | Some s => Some s
       | None => new_classification a
       end;
     new_response :=
       match new_response b with
       | Some s => Some s
       | None => new_response a
       end |}.

(** ** Facts about the string operations *)

Section StringFacts.
Local Open Scope string_scope.

Lemma append_assoc (a b c : string) : (a ++ b) ++ c = a ++ (b ++ c).
Proof. induction a as [|x a IH]; simpl; [reflexivity | now rewrite IH]. Qed.

Lemma startsWith_append (pat s : string) : startsWith pat (pat ++ s) = true.
Proof.
  induction pat as [|x pat IH]; simpl.
  - reflexivity.
  - now rewrite Ascii.eqb_refl, IH.
Qed.

Lemma drop_append (pat s : string) : drop (String.length pat) (pat ++ s) = s.
Proof. induction pat as [|x pat IH]; simpl; [reflexivity | exact IH]. Qed.

(** A pattern that does not match inside [b] cannot match across the
    end of [b] into a text that starts with a character foreign to the
    pattern. *)
Lemma startsWith_foreign (h : ascii) (q b z : string) :
  mentions h q = false ->
  startsWith q b = false ->
  startsWith q (b ++ String h z) = false.
Proof.
  revert b; induction q as [|a q IH]; intros b Hm Hs.
  - discriminate Hs.
  - simpl in Hm. apply orb_false_iff in Hm as [Hha Hq].
    destruct b as [|d b]; simpl in *.
    + rewrite Ascii.eqb_sym, Hha. reflexivity.
    + destruct (Ascii.eqb a d); simpl in *; [now apply IH | reflexivity].
Qed.

(** When the first character of the pattern does not come back later in
    it, the leftmost match in [before ++ pat ++ after] is the displayed
    one as soon as [pat] does not occur in [before]. *)
Lemma splitAtFirst_leftmost (h : ascii) (t before after : string) :
  mentions h t = false ->
  occurs (String h t) before = false ->
  splitAtFirst (String h t) (before ++ String h t ++ after)
  = Some (before, after).
Proof.
  intros Hm. induction before as [|c b IH]; intros Ho.
  - change (EmptyString ++ String h t ++ after) with (String h (t ++ after)).
    unfold splitAtFirst; fold splitAtFirst.
    change (String h (t ++ after)) with (String h t ++ after).
    now rewrite startsWith_append, drop_append.
  - cbn [occurs] in Ho. apply orb_false_iff in Ho as [Hs Ho].
    change (String c b ++ String h t ++ after)
      with (String c (b ++ String h t ++ after)).
    unfold splitAtFirst; fold splitAtFirst.
    assert (Hno : startsWith (String h t) (String c (b ++ String h t ++ after))
                  = false).
    { simpl in Hs |- *. destruct (Ascii.eqb h c); simpl in *; [|reflexivity].
      change (String h t ++ after) with (String h (t ++ after)).
      now apply startsWith_foreign. }
    rewrite Hno, (IH Ho). reflexivity.
Qed.

Lemma splitAtFirst_absent (pat s : string) :
  occurs pat s = false -> splitAtFirst pat s = None.
Proof.
  induction s as [|c s IH]; intros Ho; cbn [occurs] in Ho;
    apply orb_false_iff in Ho as [Hs Ho];
    unfold splitAtFirst; fold splitAtFirst; rewrite Hs.
  - reflexivity.
  - now rewrite (IH Ho).
Qed.

(** A replacement text without a dollar sign is inserted as it is. *)
Lemma getSubstitution_plain (matched before after templ : string) :
  mentions "$" templ = false ->
  getSubstitution matched before after templ = templ.
Proof.
  induction templ as [|c r IH]; intros Hm; [reflexivity|].
  cbn [mentions] in Hm. apply orb_false_iff in Hm as [Hc Hr].
  specialize (IH Hr).
  destruct c as [[] [] [] [] [] [] [] []];
    try discriminate Hc; cbn [getSubstitution]; now rewrite IH.
Qed.

Lemma replace_leftmost (h : ascii) (t before after value : string) :
  mentions h t = false ->
  occurs (String h t) before = false ->
  mentions "$" value = false ->
  replace (before ++ String h t ++ after) (String h t) value
  = before ++ value ++ after.
Proof.
  intros Hm Ho Hv. unfold replace.
  rewrite splitAtFirst_leftmost by assumption.
  now rewrite getSubstitution_plain.
Qed.

Lemma replace_absent (s pat value : string) :
  occurs pat s = false -> replace s pat value = s.
Proof. intros Ho. unfold replace. now rewrite splitAtFirst_absent. Qed.

(** The guard [!text.trim()] holds exactly for the texts made of
    whitespace only, the empty one included. *)
Lemma falsy_trim (s : string) : falsy (trim s) = allWhiteSpace s.
Proof.
  unfold trim. induction s as [|c s IH]; [reflexivity|].
  cbn [trimStart allWhiteSpace]. destruct (isWhiteSpace c) eqn:Hc.
  - exact IH.
  - cbn [trimEnd]. rewrite Hc. reflexivity.
Qed.

End StringFacts.

(** ** Facts about runs *)

Section RunFacts.
Local Open Scope list_scope.
Variable E : Env.

Lemma run_bind {A B} (p : Prog A) (f : A -> Prog B) (w : World E) :
  run E (bind p f) w =
  let '(r, w1, tr1) := run E p w in
  match r with
  | inl e => (inl e, w1, tr1)
  | inr a => let '(r2, w2, tr2) := run E (f a) w1 in (r2, w2, tr1 ++ tr2)
  end.
Proof.
  revert w. induction p as [a|e|r k IH|k IH]; intros w; simpl.
  - destruct (run E (f a) w) as [[r2 w2] tr2]. reflexivity.
  - reflexivity.
  - destruct (handle E r w) as [x w1]. rewrite IH.
    destruct (run E (k x) w1) as [[[e|a] w2] tr]; [reflexivity|].
    destruct (run E (f a) w2) as [[r2 w3] tr2]. reflexivity.
  - destruct (clock E w) as [t w1]. rewrite IH.
    destruct (run E (k t) w1) as [[[e|a] w2] tr]; [reflexivity|].
    destruct (run E (f a) w2) as [[r2 w3] tr2]. reflexivity.
Qed.

Lemma run_await (r : Request) (w : World E) :
  run E (await r) w =
  (fst (handle E r w), snd (handle E r w),
   [Requested r (answerOf r (fst (handle E r w)))]).
Proof.
  unfold await. simpl. destruct (handle E r w) as [[e|v] w1]; reflexivity.
Qed.

End RunFacts.

(** ** The constructor and [updatePrompts] *)


Lemma missing_absent (x : option string) : missing x = true <-> absent x.
Proof.
  unfold missing, absent, falsy. destruct x as [s|].
  - rewrite String.eqb_eq. split.
    + intros ->. now right.
    + intros [H|H]; [discriminate | now injection H].
  - split; [now left | reflexivity].
Qed.

Lemma or_else_supplied (s d : string) :
  s <> EmptyString -> or_else (Some s) d = s.
Proof.
  intros H. unfold or_else, falsy.
  destruct (String.eqb_spec s EmptyString); [contradiction | reflexivity].
Qed.

Lemma or_else_nonempty (x : option string) (d : string) :
  d <> EmptyString -> or_else x d <> EmptyString.
Proof.
  intros Hd. unfold or_else, falsy. destruct x as [s|]; [|exact Hd].
  destruct (String.eqb_spec s EmptyString); assumption.
Qed.

Lemma Reachable_fallback (this : RAGImplementation) :
  Reachable this -> fallbackResponse this <> EmptyString.
Proof.
  induction 1 as [config this Hc|this np _ IH]; [|exact IH].
  unfold constructor in Hc.
  destruct (missing (googleApiKey config) || missing (qdrantUrl config)
            || missing (qdrantApiKey config) || missing (groqApiKey config));
    [discriminate|].
  injection Hc as <-. cbn [fallbackResponse].
  apply or_else_nonempty. discriminate.
Qed.

(** Whatever the client libraries, an instance that [construct] yields
    is the one of [constructor]. *)
Lemma construct_constructor (sdk : ClientLibraries) (config : RAGConfig)
  (this : RAGImplementation) :
  construct sdk config = inr this -> constructor config = inr this.
Proof.
  unfold construct, constructor.
  destruct (missing (googleApiKey config) || missing (qdrantUrl config)
            || missing (qdrantApiKey config) || missing (groqApiKey config));
    [discriminate|].
  destruct (qdrantThrows sdk _ _); [discriminate|].
  destruct (embeddingsThrows sdk _ _); [discriminate|].
  destruct (groqThrows sdk _); [discriminate|].
  intros H. exact H.
Qed.

(** C7, as the code has it.  When one of the four required fields
    (embedding credential, vector-store endpoint, vector-store
    credential, chat credential) is missing or empty, construction
    throws the configuration error, whatever the client libraries
    are, since no client is constructed yet, and no request is issued,
    whatever the caller meant to do with the instance.  When the four
    are present, construction can still throw, but only an error that
    one of the three client constructors throws; and when the three
    constructors return, the instance is built, with the collection
    name [default_collection] when none is supplied and the supplied
    one otherwise. *)
Theorem construct_fail_fast (sdk : ClientLibraries) (config : RAGConfig) :
  ((absent (googleApiKey config) \/ absent (qdrantUrl config) \/
    absent (qdrantApiKey config) \/ absent (groqApiKey config)) ->
   construct sdk config
   = inl (newError "Required configuration parameters are missing")
   /\ forall (E : Env) (A : Type) (rest : RAGImplementation -> Prog A)
             (w : World E),
        run E (createRAG sdk config rest) w
        = (inl (newError "Required configuration parameters are missing"),
           w, []))
  /\ (forall g u k q,
        googleApiKey config = Some g -> g <> EmptyString ->
        qdrantUrl config = Some u -> u <> EmptyString ->
        qdrantApiKey config = Some k -> k <> EmptyString ->
        groqApiKey config = Some q -> q <> EmptyString ->
        (forall e,
            construct sdk config = inl e ->
            qdrantThrows sdk u k = Some e
            \/ embeddingsThrows sdk g "text-embedding-004" = Some e
            \/ groqThrows sdk q = Some e)
        /\ (qdrantThrows sdk u k = None ->
            embeddingsThrows sdk g "text-embedding-004" = None ->
            groqThrows sdk q = None ->
            exists this,
              construct sdk config = inr this
              /\ (cfg_collectionName config = None ->
                  collectionName this = "default_collection")
              /\ (forall s, cfg_collectionName config = Some s ->
                            s <> EmptyString -> collectionName this = s))).
Proof.
  split.
  - intros Ha. unfold createRAG, construct.
    assert (Hguard :
      missing (googleApiKey config) || missing (qdrantUrl config)
      || missing (qdrantApiKey config) || missing (groqApiKey config) = true).
    { rewrite !orb_true_iff, !missing_absent. tauto. }
    rewrite Hguard. split; reflexivity.
  - intros g u k q Hg Hg' Hu Hu' Hk Hk' Hq Hq'. unfold construct.
    rewrite Hg, Hu, Hk, Hq. cbn [missing required].
    unfold falsy.
    apply String.eqb_neq in Hg', Hu', Hk', Hq'.
    rewrite Hg', Hu', Hk', Hq'. cbn [orb]. split.
    + intros e He.
      destruct (qdrantThrows sdk u k) as [e1|];
        [injection He as <-; now left|].
      destruct (embeddingsThrows sdk g "text-embedding-004") as [e2|];
        [injection He as <-; right; now left|].
      destruct (groqThrows sdk q) as [e3|];
        [injection He as <-; right; now right | discriminate He].
    + intros -> -> ->. eexists. split; [reflexivity|].
      cbn [collectionName]. split.
      * intros ->. reflexivity.
      * intros s -> Hs. now apply or_else_supplied.
Qed.

(** C8. [updatePrompts] replaces the templates that the argument
    supplies and keeps the others; updating the classification template
    alone leaves the response template as it was; the collection name,
    the fallback text and the three clients are not touched. *)
Theorem updatePrompts_frame (this : RAGImplementation)
  (newPrompts : PartialPrompts) :
  let after := updatePrompts this newPrompts in
  (forall s, new_classification newPrompts = Some s ->
             classification (prompts after) = s)
  /\ (new_classification newPrompts = None ->
      classification (prompts after) = classification (prompts this))
  /\ (forall s, new_response newPrompts = Some s ->
                response (prompts after) = s)
  /\ (new_response newPrompts = None ->
      response (prompts after) = response (prompts this))
  /\ collectionName after = collectionName this
  /\ fallbackResponse after = fallbackResponse this
  /\ qdrantClient after = qdrantClient this
  /\ embeddings after = embeddings this
  /\ groqClient after = groqClient this.
Proof.
  cbn. repeat split; try (intros s Hs; now rewrite Hs); intros H; now rewrite H.
Qed.


(** ** The methods, in every environment *)

Section Methods.
Variable E : Env.
Variable this : RAGImplementation.

(** C6. A source text that is empty or made of whitespace only makes
    the indexing step throw its empty-input error with an empty trace:
    no splitting, no embedding request, no request to the vector
    store. *)
Theorem createVectorStore_rejects_blank (input : string) (w : World E) :
  allWhiteSpace input = true ->
  run E (createVectorStore this input) w
  = (inl (newError "No text provided for vector store creation"), w, []).
Proof.
  intros Hblank. unfold createVectorStore.
  rewrite falsy_trim, Hblank. reflexivity.
Qed.

(** A text with a character that is not whitespace passes the guard:
    the first thing the call does is to hand the text to the splitter,
    set up for chunks of 1000 characters overlapping by 200. *)
Lemma createVectorStore_splits_first (input : string) (w : World E) :
  allWhiteSpace input = false ->
  exists answer rest,
    snd (run E (createVectorStore this input) w)
    = Requested (SplitText {| chunkSize := 1000; chunkOverlap := 200 |} input)
                answer :: rest.
Proof.
  intros Htext. unfold createVectorStore, await.
  rewrite falsy_trim, Htext. cbn [bind run].
  destruct (handle E _ w) as [x w1].
  match goal with
  | |- context [run E ?p w1] => destruct (run E p w1) as [[res w2] tr]
  end.
  eexists _, _. reflexivity.
Qed.

(** X19. An error of the lookup other than 404 is thrown again as it
    is, and nothing is created. *)
Lemma ensureCollection_rethrows (vectorSize : Z) (w : World E)
  (error : Error) (w1 : World E) :
  handle E (GetCollection (collectionName this)) w = (inl error, w1) ->
  status error <> Some 404%Z ->
  run E (ensureCollection this vectorSize) w
  = (inl error, w1,
     [Requested (GetCollection (collectionName this)) (Rejected error)]).
Proof.
  intros Hget Hstatus. unfold ensureCollection, await.
  cbn [bind tryCatch run]. rewrite Hget. cbn [bind tryCatch run].
  unfold is404. destruct (status error) as [s|]; [|reflexivity].
  destruct (Z.eqb_spec s 404) as [->|Hne]; [contradiction | reflexivity].
Qed.

(** C1. [ensureCollection] looks the collection up and then does one of
    three things.  Not found (status 404): it asks for the creation of
    the collection with the given size and the cosine distance, and
    ends as that request ends.  Found with the given size: nothing more
    is requested and the call returns.  Found with another size: the
    call throws the size-mismatch error and the lookup is the only
    request issued, so nothing is created or changed. *)
Theorem ensureCollection_trichotomy (vectorSize : Z) (w : World E) :
  let name := collectionName this in
  let create :=
    CreateCollection name
      {| cp_vectors := {| size := vectorSize; distance := Cosine |};
         default_segment_number := 2;
         replication_factor := 2;
         write_consistency_factor := 1 |} in
  (forall error w1 outcome w2,
      handle E (GetCollection name) w = (inl error, w1) ->
      status error = Some 404%Z ->
      handle E create w1 = (outcome, w2) ->
      run E (ensureCollection this vectorSize) w
      = (outcome, w2,
         [Requested (GetCollection name) (Rejected error);
          Requested create (answerOf create outcome)]))
  /\ (forall collection declared w1,
      handle E (GetCollection name) w = (inr collection, w1) ->
      vectors collection = Some declared ->
      size declared = vectorSize ->
      run E (ensureCollection this vectorSize) w
      = (inr tt, w1,
         [Requested (GetCollection name) (GotCollection collection)]))
  /\ (forall collection declared w1,
      handle E (GetCollection name) w = (inr collection, w1) ->
      vectors collection = Some declared ->
      size declared <> vectorSize ->
      run E (ensureCollection this vectorSize) w
      = (inl (newError ("Vector size mismatch. Expected: "
                        ++ numberToString vectorSize)), w1,
         [Requested (GetCollection name) (GotCollection collection)])).
Proof.
  cbv zeta. unfold ensureCollection, await. repeat split.
  - intros error w1 outcome w2 Hget H404 Hcreate.
    cbn [bind tryCatch run]. rewrite Hget. cbn [bind tryCatch run].
    unfold is404. rewrite H404. cbn [Z.eqb Pos.eqb run].
    unfold creation. rewrite Hcreate.
    destruct outcome as [e|[]]; reflexivity.
  - intros collection declared w1 Hget Hv Hsize.
    cbn [bind tryCatch run]. rewrite Hget. cbn [bind tryCatch run].
    unfold sizeDiffers. rewrite Hv, Hsize, Z.eqb_refl. reflexivity.
  - intros collection declared w1 Hget Hv Hsize.
    cbn [bind tryCatch run]. rewrite Hget. cbn [bind tryCatch run].
    unfold sizeDiffers. rewrite Hv.
    apply Z.eqb_neq in Hsize. rewrite Hsize. reflexivity.
Qed.

(** C2. Once the query is embedded and the search has answered:
    with no hit the call returns the fallback text and the trace holds
    no chat request; with hits the chat provider is asked once, and the
    call returns the fallback text when the completion carries no
    content (no choice, no message, a null or empty content) and the
    content itself otherwise.  For an instance obtained through the
    constructor the returned text is never empty. *)
Theorem getBotResponse_fallback (userInput : string) (w : World E)
  (queryEmbed : Vector) (w1 : World E) (hits : list Hit) (w2 : World E) :
  let search := Search (collectionName this)
                  {| query_vector := queryEmbed; limit := 3 |} in
  let chat := ChatCreate (singleTurn (responsePrompt this hits userInput)) in
  handle E (EmbedQuery userInput) w = (inr queryEmbed, w1) ->
  handle E search w1 = (inr hits, w2) ->
  (hits = [] ->
   run E (getBotResponse this userInput) w
   = (inr (fallbackResponse this), w2,
      [Requested (EmbedQuery userInput) (GotVector queryEmbed);
       Requested search (GotHits hits)])
   /\ (Reachable this -> fallbackResponse this <> EmptyString))
  /\ (forall completion w3,
      hits <> [] ->
      handle E chat w2 = (inr completion, w3) ->
      exists answer,
        run E (getBotResponse this userInput) w
        = (inr answer, w3,
           [Requested (EmbedQuery userInput) (GotVector queryEmbed);
            Requested search (GotHits hits);
            Requested chat (GotCompletion completion)])
        /\ (firstContent completion = None \/
            firstContent completion = Some EmptyString ->
            answer = fallbackResponse this)
        /\ (forall content,
               firstContent completion = Some content ->
               content <> EmptyString -> answer = content)
        /\ (Reachable this -> answer <> EmptyString)).
Proof.
  cbv zeta. intros Hembed Hsearch. unfold getBotResponse, await. split.
  - intros ->. split; [|apply Reachable_fallback].
    cbn [bind run]. rewrite Hembed. cbn [bind run].
    rewrite Hsearch. reflexivity.
  - intros completion w3 Hhits Hchat.
    destruct hits as [|hit rest]; [contradiction|].
    eexists. split.
    + cbn [bind run]. rewrite Hembed. cbn [bind run]. rewrite Hsearch.
      cbn [bind run]. rewrite Hchat. reflexivity.
    + split; [|split].
      * intros [H|H]; rewrite H; reflexivity.
      * intros content H Hne. rewrite H. now apply or_else_supplied.
      * intros Hreach. apply or_else_nonempty.
        now apply Reachable_fallback.
Qed.

End Methods.

(** ** Prompts *)

Section PromptFacts.
Variable E : Env.
Variable this : RAGImplementation.

Lemma replace_query (before after value : string) :
  occurs "{query}" before = false ->
  mentions "$" value = false ->
  replace (before ++ "{query}" ++ after) "{query}" value
  = before ++ value ++ after.
Proof. intros Ho Hv. now apply (@replace_leftmost "{" "query}"). Qed.

Lemma replace_context (before after value : string) :
  occurs "{context}" before = false ->
  mentions "$" value = false ->
  replace (before ++ "{context}" ++ after) "{context}" value
  = before ++ value ++ after.
Proof. intros Ho Hv. now apply (@replace_leftmost "{" "context}"). Qed.

(** C3, as the code has it.  For a query without a dollar sign and a
    classification template whose leftmost [{query}] sits between
    [before] and [after], [classifyQuery] sends one single-turn chat
    request whose prompt is [before ++ query ++ after] and returns the
    content of the first choice exactly as the provider gave it, with
    its surrounding whitespace; when the completion carries no content
    the label is [general]. *)
Theorem classifyQuery_label (query before after : string) (w : World E)
  (completion : Completion) (w1 : World E) :
  let ask := ChatCreate
               {| messages := [ {| role := "user";
                                   content := before ++ query ++ after |} ];
                  model := "llama3-8b-8192" |} in
  classification (prompts this) = before ++ "{query}" ++ after ->
  occurs "{query}" before = false ->
  mentions "$" query = false ->
  handle E ask w = (inr completion, w1) ->
  exists label,
    run E (classifyQuery this query) w
    = (inr label, w1, [Requested ask (GotCompletion completion)])
    /\ (forall content,
           firstContent completion = Some content ->
           content <> EmptyString -> label = content)
    /\ (firstContent completion = None \/
        firstContent completion = Some EmptyString ->
        label = "general").
Proof.
  cbv zeta. intros Htemplate Hleft Hplain Hask.
  unfold classifyQuery, await, singleTurn.
  rewrite Htemplate, replace_query by assumption.
  cbn [bind run]. rewrite Hask. cbn [bind run answerOf].
  eexists. split; [reflexivity|]. split.
  - intros content Hc Hne. rewrite Hc. now apply or_else_supplied.
  - intros [H|H]; rewrite H; reflexivity.
Qed.

(** C10, as the code has it.  Values without a dollar sign are inserted
    at the leftmost placeholder only; what follows it, later
    placeholders included, is sent as it stands.  In the response path
    the context goes in first, so the user's query lands on the
    leftmost [{query}] of the template with the context already in it:
    on a [{query}] written inside the context when none comes before
    it, and then the template's own [{query}] stays; on the template's
    own [{query}] when that one comes first, be it after the context
    or before it, and then those written inside the context stay. *)
Theorem substitution_leftmost_only (query : string) (w : World E)
  (hits : list Hit) :
  let context := join " " (map hitText hits) in
  mentions "$" query = false ->
  (forall before after,
      classification (prompts this) = before ++ "{query}" ++ after ->
      occurs "{query}" before = false ->
      requestsOf (snd (run E (classifyQuery this query) w))
      = [ChatCreate (singleTurn (before ++ query ++ after))])
  /\ (forall a b,
      response (prompts this) = a ++ "{context}" ++ b ->
      occurs "{context}" a = false ->
      mentions "$" context = false ->
      (forall c1 c2,
          context = c1 ++ "{query}" ++ c2 ->
          occurs "{query}" (a ++ c1) = false ->
          responsePrompt this hits query
          = (a ++ c1) ++ query ++ (c2 ++ b))
      /\ (forall b1 b2,
          b = b1 ++ "{query}" ++ b2 ->
          occurs "{query}" (a ++ context ++ b1) = false ->
          responsePrompt this hits query
          = (a ++ context ++ b1) ++ query ++ b2)
      /\ (forall a1 a2,
          a = a1 ++ "{query}" ++ a2 ->
          occurs "{query}" a1 = false ->
          responsePrompt this hits query
          = a1 ++ query ++ (a2 ++ context ++ b)))
  /\ (forall queryEmbed w1 w2,
      hits <> [] ->
      handle E (EmbedQuery query) w = (inr queryEmbed, w1) ->
      handle E (Search (collectionName this)
                  {| query_vector := queryEmbed; limit := 3 |}) w1
      = (inr hits, w2) ->
      requestsOf (snd (run E (getBotResponse this query) w))
      = [EmbedQuery query;
         Search (collectionName this)
           {| query_vector := queryEmbed; limit := 3 |};
         ChatCreate (singleTurn (responsePrompt this hits query))]).
Proof.
  cbv zeta. intros Hplain. split; [|split].
  - intros before after Htemplate Hleft.
    unfold classifyQuery, await.
    rewrite Htemplate, replace_query by assumption.
    cbn [bind run].
    destruct (handle E _ w) as [[e|completion] w1]; reflexivity.
  - intros a b Htemplate Hleft Hctx. unfold responsePrompt.
    rewrite Htemplate, replace_context by assumption. split.
    + intros c1 c2 -> Hfirst.
      rewrite (append_assoc c1), <- (append_assoc a c1).
      change ("{query}" ++ c2) with (String "{" ("query}" ++ c2)).
      change (String "{" ("query}" ++ c2) ++ b)
        with ("{query}" ++ (c2 ++ b)).
      now apply replace_query.
    + split.
      * intros b1 b2 -> Hfirst.
        rewrite <- (append_assoc _ b1 ("{query}" ++ b2)).
        rewrite <- (append_assoc a (_ ++ b1) ("{query}" ++ b2)).
        now apply replace_query.
      * intros a1 a2 -> Hfirst.
        rewrite (append_assoc a1).
        change (("{query}" ++ a2) ++ join " " (map hitText hits) ++ b)
          with ("{query}" ++ (a2 ++ join " " (map hitText hits) ++ b)).
        now apply replace_query.
  - intros queryEmbed w1 w2 Hhits Hembed Hsearch.
    destruct hits as [|hit rest]; [contradiction|].
    unfold getBotResponse, await.
    cbn [bind run]. rewrite Hembed. cbn [bind run]. rewrite Hsearch.
    cbn [bind run].
    destruct (handle E _ w2) as [[e|completion] w3]; reflexivity.
Qed.

End PromptFacts.

(** ** Point identifiers *)

Section PointFacts.
Variable E : Env.

Lemma increasing_NoDup (l : list Z) : StronglySorted Z.lt l -> NoDup l.
Proof.
  induction 1 as [|a l _ IH Hall]; constructor; [|exact IH].
  intros Hin. rewrite Forall_forall in Hall.
  specialize (Hall a Hin). lia.
Qed.

(** The points built from ordinal [i] on, when every chunk from there
    has its embedding. *)
Lemma makePoints_from (embeds : list Vector) (texts : list string) :
  forall (i : nat) (w : World E),
    i + length texts <= length embeds ->
    exists pts w' tr,
      run E (makePoints embeds texts i) w = (inr pts, w', tr)
      /\ length pts = length texts
      /\ (forall k p, nth_error pts k = Some p ->
            chunkIndex (payload p) = i + k
            /\ exists base, In base (clockReadings tr)
                            /\ id p = (base + Z.of_nat (i + k))%Z)
      /\ (StronglySorted Z.le (clockReadings tr) ->
          StronglySorted Z.lt (map id pts)).
Proof.
  induction texts as [|t rest IH]; intros i w Hlen.
  - exists [], w, []. cbn. split; [reflexivity|]. split; [reflexivity|].
    split; [|constructor].
    intros [|k] p H; discriminate H.
  - cbn [length] in Hlen. cbn [makePoints run].
    destruct (clock E w) as [now w1].
    destruct (nth_error embeds i) as [v|] eqn:Hv.
    2:{ apply nth_error_None in Hv. lia. }
    cbn [run]. destruct (clock E w1) as [stamp w2].
    destruct (IH (S i) w2) as (ps & w3 & tr & Hrun & Hn & Hid & Hsorted);
      [lia|].
    rewrite run_bind, Hrun. cbn [run app].
    eexists _, w3, _. split; [reflexivity|]. cbn [clockReadings flat_map app].
    fold (clockReadings tr). split; [cbn; now rewrite Hn|]. split.
    + intros [|k] p Hp; cbn in Hp.
      * injection Hp as <-. cbn. split; [lia|].
        exists now. split; [now left | f_equal; f_equal; lia].
      * destruct (Hid k p Hp) as (Hidx & base & Hin & Hbase).
        split; [lia|]. rewrite app_nil_r.
        exists base. split; [right; right; exact Hin|].
        rewrite Hbase. f_equal. f_equal. lia.
    + rewrite app_nil_r. intros Hclock.
      apply StronglySorted_inv in Hclock as [Hclock Hnow].
      apply StronglySorted_inv in Hclock as [Hclock _].
      apply Forall_inv_tail in Hnow. rewrite Forall_forall in Hnow.
      cbn [map id]. constructor; [now apply Hsorted|].
      apply Forall_forall. intros x Hx.
      apply in_map_iff in Hx as (p & <- & Hp).
      apply In_nth_error in Hp as [k Hk].
      destruct (Hid k p Hk) as (_ & base & Hin & ->).
      specialize (Hnow base Hin). lia.
Qed.

(** [Promise.all] over the embedding requests hands back one vector per
    text when it does not throw. *)
Lemma embeddings_align (texts : list string) :
  forall (w : World E) embeds w' tr,
    run E (settled <- embedEach texts ;; promiseAll settled) w
    = (inr embeds, w', tr) ->
    length embeds = length texts.
Proof.
  induction texts as [|t rest IH]; intros w embeds w' tr Hrun.
  - cbn in Hrun. injection Hrun as <- _ _. reflexivity.
  - cbn [embedEach bind run] in Hrun.
    destruct (handle E (EmbedQuery t) w) as [x w1].
    rewrite run_bind in Hrun. rewrite run_bind in Hrun.
    destruct (run E (embedEach rest) w1) as [[[e|xs] w2] tr1] eqn:Hrest;
      [discriminate Hrun|].
    cbn [run promiseAll] in Hrun.
    destruct x as [e|v]; [cbn in Hrun; discriminate Hrun|].
    specialize (IH w1). rewrite run_bind, Hrest in IH.
    rewrite run_bind in Hrun.
    destruct (run E (promiseAll xs) w2) as [[[e|vs] w3] tr2];
      [discriminate Hrun|].
    cbn in Hrun. injection Hrun as <- _ _.
    cbn [length]. f_equal. eapply IH. reflexivity.
Qed.

(** C5. In one indexing call the points are built, one per chunk, with
    the identifier of chunk [k] being a clock reading of the call plus
    [k]; when the readings of the call never go down, the identifiers
    increase strictly with the ordinal and so are pairwise distinct. *)
Theorem point_ids_distinct (embeds : list Vector) (texts : list string)
  (w : World E) :
  length embeds = length texts ->
  exists pts w' tr,
    run E (makePoints embeds texts 0) w = (inr pts, w', tr)
    /\ length pts = length texts
    /\ (forall k p, nth_error pts k = Some p ->
          chunkIndex (payload p) = k
          /\ exists base, In base (clockReadings tr)
                          /\ id p = (base + Z.of_nat k)%Z)
    /\ (Sorted Z.le (clockReadings tr) ->
        StronglySorted Z.lt (map id pts) /\ NoDup (map id pts)).
Proof.
  intros Hlen.
  destruct (@makePoints_from embeds texts 0 w) as
    (pts & w' & tr & Hrun & Hn & Hid & Hsorted); [lia|].
  exists pts, w', tr. repeat split; try assumption.
  - now destruct (Hid k p H).
  - now destruct (Hid k p H).
  - apply Hsorted. apply Sorted_StronglySorted; [|assumption].
    intros x y z. apply Z.le_trans.
  - apply increasing_NoDup. apply Hsorted.
    apply Sorted_StronglySorted; [|assumption].
    intros x y z. apply Z.le_trans.
Qed.

End PointFacts.

(** ** Batched upsert *)

Section UpsertFacts.
Local Open Scope list_scope.
Variable E : Env.

Lemma firstn_add {A} (a b : nat) (l : list A) :
  firstn (a + b) l = firstn a l ++ firstn b (skipn a l).
Proof.
  revert l. induction a as [|a IH]; intros l; [reflexivity|].
  destruct l as [|x l]; cbn.
  - now rewrite firstn_nil.
  - now rewrite IH.
Qed.

Lemma batch_unfold (k : nat) (pts : list Point) :
  batch k pts = firstn 10 (skipn (10 * k) pts).
Proof.
  unfold batch, slice, batchSize.
  replace (k * 10 + 10 - k * 10) with 10 by lia.
  now replace (k * 10) with (10 * k) by lia.
Qed.

Lemma batches_prefix (pts : list Point) (j : nat) :
  concat (map (fun k => batch k pts) (seq 0 j)) = firstn (10 * j) pts.
Proof.
  induction j as [|j IH]; [reflexivity|].
  rewrite seq_S, map_app, concat_app, IH. cbn [map concat plus].
  rewrite app_nil_r, batch_unfold.
  replace (10 * S j) with (10 * j + 10) by lia.
  now rewrite firstn_add.
Qed.

Lemma batchCount_spec (pts : list Point) (k : nat) :
  k * 10 < length pts <-> k < batchCount pts.
Proof.
  unfold batchCount.
  pose proof (Nat.div_mod_eq (length pts + 9) 10) as Hdiv.
  pose proof (Nat.mod_upper_bound (length pts + 9) 10) as Hmod.
  lia.
Qed.


(** The loop from batch [k] on: some batches are acknowledged, in
    order; then either the points are exhausted, or one batch is
    rejected and the loop stops there. *)
Lemma upsertFrom_run (name : string) (pts : list Point) :
  forall (n k : nat) (w : World E),
    batchCount pts - k <= n ->
    k <= batchCount pts ->
    exists j res w' last,
      run E (upsertFrom name pts (k * 10)) w
      = (res, w', map (acknowledged name pts) (seq k j) ++ last)
      /\ ((res = inr tt /\ k + j = batchCount pts /\ last = [])
          \/ (exists e,
                res = inl e /\ k + j < batchCount pts
                /\ last = [Requested
                             (Upsert name {| points := batch (k + j) pts;
                                             wait := true |})
                             (Rejected e)])).
Proof.
  induction n as [|n IH]; intros k w Hn Hk;
    rewrite upsertFrom_equation_1;
    destruct (lt_dec (k * 10) (length pts)) as [Hlt|Hge].
  - pose proof (proj1 (batchCount_spec pts k) Hlt). lia.
  - rewrite upsertFrom_clause_1_equation_2.
    exists 0, (inr tt), w, []. split; [reflexivity|]. left.
    rewrite batchCount_spec in Hge. repeat split. lia.
  - pose proof (proj1 (batchCount_spec pts k) Hlt) as Hcount.
    rewrite upsertFrom_clause_1_equation_1.
    rewrite run_bind, run_await.
    change (slice (k * 10) (k * 10 + batchSize) pts) with (batch k pts).
    destruct (handle E (Upsert name {| points := batch k pts; wait := true |}) w)
      as [[e|[]] w1]; cbn [fst snd answerOf].
    + exists 0, (inl e), w1,
        [Requested (Upsert name {| points := batch k pts; wait := true |})
                   (Rejected e)].
      split; [reflexivity|]. right. exists e.
      rewrite Nat.add_0_r. now repeat split.
    + destruct (IH (S k) w1) as (j & res & w' & last & Hrun & Hend);
        [lia | lia |].
      replace (k * 10 + batchSize) with (S k * 10) by (unfold batchSize; lia).
      rewrite Hrun. exists (S j), res, w', last. split.
      * reflexivity.
      * replace (k + S j) with (S k + j) by lia. exact Hend.
  - rewrite upsertFrom_clause_1_equation_2.
    exists 0, (inr tt), w, []. split; [reflexivity|]. left.
    rewrite batchCount_spec in Hge. repeat split. lia.
Qed.


End UpsertFacts.

(** ** Worked instances on the in-memory environment *)

Section Instances.
Import Fake.
Local Open Scope string_scope.

Lemma createVectorStore_rejects_blank_witness :
  allWhiteSpace (String "009" (String "010" "  ")) = true
  /\ run fakeEnv
       (createVectorStore sampleRag (String "009" (String "010" "  ")))
       (emptyWorld silent)
     = (inl (newError "No text provided for vector store creation"),
        emptyWorld silent, []).
Proof.
  split; [reflexivity|].
  apply (@createVectorStore_rejects_blank fakeEnv sampleRag). reflexivity.
Defined.

(** The scenario of the specification: a first call creates the
    collection, a second call with the same size does nothing, a third
    call with another size throws. *)
Lemma ensureCollection_trichotomy_witness :
  let created := worldWith [] 100 silent in
  let found :=
    Requested (GetCollection "custom-collection")
      (GotCollection {| vectors := Some {| size := 3; distance := Cosine |} |}) in
  run fakeEnv (ensureCollection sampleRag 3) (emptyWorld silent)
  = (inr tt, created,
     [Requested (GetCollection "custom-collection") (Rejected notFound);
      Requested (CreateCollection "custom-collection"
                   {| cp_vectors := {| size := 3; distance := Cosine |};
                      default_segment_number := 2;
                      replication_factor := 2;
                      write_consistency_factor := 1 |})
                Acknowledged])
  /\ run fakeEnv (ensureCollection sampleRag 3) created
     = (inr tt, created, [found])
  /\ run fakeEnv (ensureCollection sampleRag 4) created
     = (inl (newError "Vector size mismatch. Expected: 4"), created, [found]).
Proof.
  cbv zeta. split; [|split].
  - apply (proj1 (@ensureCollection_trichotomy fakeEnv sampleRag 3
                    (emptyWorld silent))
             notFound (emptyWorld silent) (inr tt) (worldWith [] 100 silent));
      reflexivity.
  - apply (proj1 (proj2 (@ensureCollection_trichotomy fakeEnv sampleRag 3
                           (worldWith [] 100 silent)))
             {| vectors := Some {| size := 3; distance := Cosine |} |}
             {| size := 3; distance := Cosine |});
      reflexivity.
  - apply (proj2 (proj2 (@ensureCollection_trichotomy fakeEnv sampleRag 4
                           (worldWith [] 100 silent)))
             {| vectors := Some {| size := 3; distance := Cosine |} |}
             {| size := 3; distance := Cosine |});
      [reflexivity | reflexivity | discriminate].
Defined.

(** No hit: the fallback text and no chat request.  Hits and a silent
    provider: the fallback text.  Hits and an answer: the answer. *)
Lemma getBotResponse_fallback_witness :
  let ask := "When is the midterm?" in
  let fallback := "Sorry, I could not find relevant information." in
  (fst (fst (run fakeEnv (getBotResponse sampleRag ask)
               (worldWith [] 100 (says (Some "In October.")))))
   = inr fallback
   /\ requestsOf (snd (run fakeEnv (getBotResponse sampleRag ask)
                         (worldWith [] 100 (says (Some "In October.")))))
      = [EmbedQuery ask;
         Search "custom-collection"
           {| query_vector := embed ask; limit := 3 |}])
  /\ fst (fst (run fakeEnv (getBotResponse sampleRag ask)
                 (worldWith [midterm; sports] 100 silent)))
     = inr fallback
  /\ fst (fst (run fakeEnv (getBotResponse sampleRag ask)
                 (worldWith [midterm; sports] 100 (says (Some "In October.")))))
     = inr "In October.".
Proof.
  cbv zeta. split; [|split].
  - pose (w := worldWith [] 100 (says (Some "In October."))).
    destruct (@getBotResponse_fallback fakeEnv sampleRag
                "When is the midterm?" w (embed "When is the midterm?") w
                [] w eq_refl eq_refl) as [Hnone _].
    fold w. rewrite (proj1 (Hnone eq_refl)). split; reflexivity.
  - pose (w := worldWith [midterm; sports] 100 silent).
    destruct (@getBotResponse_fallback fakeEnv sampleRag
                "When is the midterm?" w (embed "When is the midterm?") w
                [asHit midterm; asHit sports] w eq_refl eq_refl)
      as [_ Hsome].
    destruct (Hsome {| choices := [] |} w) as (answer & Hrun & Hsilent & _);
      [discriminate | reflexivity |].
    fold w. rewrite Hrun. cbn [fst]. f_equal. apply Hsilent. now left.
  - pose (w := worldWith [midterm; sports] 100 (says (Some "In October."))).
    destruct (@getBotResponse_fallback fakeEnv sampleRag
                "When is the midterm?" w (embed "When is the midterm?") w
                [asHit midterm; asHit sports] w eq_refl eq_refl)
      as [_ Hsome].
    destruct (Hsome (says (Some "In October.") (singleTurn EmptyString)) w)
      as (answer & Hrun & _ & Hcontent & _);
      [discriminate | reflexivity |].
    fold w. rewrite Hrun. cbn [fst]. f_equal.
    apply Hcontent; [reflexivity | discriminate].
Defined.

(** The provider's text comes back with its whitespace: the label is
    not the trimmed text. *)
Lemma classifyQuery_keeps_whitespace :
  let provided := " general" ++ String "010" EmptyString in
  fst (fst (run fakeEnv (classifyQuery sampleRag "When is the midterm?")
              (emptyWorld (says (Some provided)))))
  = inr provided
  /\ trim provided = "general"
  /\ provided <> trim provided.
Proof. cbv zeta. split; [reflexivity|]. split; [reflexivity | discriminate]. Qed.

Lemma classifyQuery_label_witness :
  let provided := " general" ++ String "010" EmptyString in
  let w := emptyWorld (says (Some provided)) in
  let ask := ChatCreate (singleTurn "Q: exam dates / again: {query}") in
  run fakeEnv (classifyQuery contextFirst "exam dates") w
  = (inr provided, w, [Requested ask (GotCompletion (says (Some provided) (singleTurn EmptyString)))]).
Proof.
  cbv zeta.
  pose (provided := " general" ++ String "010" EmptyString).
  pose (w := emptyWorld (says (Some provided))).
  destruct (@classifyQuery_label fakeEnv contextFirst "exam dates"
              "Q: " " / again: {query}" w
              (says (Some provided) (singleTurn EmptyString)) w
              eq_refl eq_refl eq_refl eq_refl)
    as (label & Hrun & Hcontent & _).
  fold provided. fold w. rewrite Hrun.
  rewrite (Hcontent provided eq_refl); [reflexivity | discriminate].
Defined.

(** Two inputs on which the substitution is not the plain one.  A
    query with a doubled dollar sign reaches the prompt with a single
    one.  With a response template that names the query before the
    context, the [{query}] written inside the retrieved text is left
    as it is. *)
Lemma substitution_counterexample :
  requestsOf (snd (run fakeEnv (classifyQuery contextFirst "Is the fee $$20?")
                     (emptyWorld silent)))
  = [ChatCreate (singleTurn "Q: Is the fee $20? / again: {query}")]
  /\ "Q: Is the fee $20? / again: {query}"
     <> "Q: " ++ "Is the fee $$20?" ++ " / again: {query}"
  /\ response (prompts queryFirst) = "Question: {query} Context: {context}"
  /\ responsePrompt queryFirst [manual] "When is the midterm?"
     = "Question: When is the midterm? Context: Write {query} where the question goes.".
Proof.
  split; [reflexivity|]. split; [discriminate|]. split; reflexivity.
Qed.

Lemma substitution_leftmost_only_witness :
  let ask := "When is the midterm?" in
  let w := worldWith [midterm] 100 silent in
  requestsOf (snd (run fakeEnv (classifyQuery contextFirst ask) w))
  = [ChatCreate (singleTurn "Q: When is the midterm? / again: {query}")]
  /\ responsePrompt contextFirst [manual] ask
     = "Context: Write When is the midterm? where the question goes. Question: {query}"
  /\ responsePrompt queryFirst [manual] ask
     = "Question: When is the midterm? Context: Write {query} where the question goes."
  /\ requestsOf (snd (run fakeEnv (getBotResponse contextFirst ask) w))
     = [EmbedQuery ask;
        Search "custom-collection" {| query_vector := embed ask; limit := 3 |};
        ChatCreate (singleTurn
          "Context: Midterm exams are in October. Question: When is the midterm?")].
Proof.
  cbv zeta.
  pose (ask := "When is the midterm?").
  pose (w := worldWith [midterm] 100 silent).
  split; [|split; [|split]].
  - destruct (@substitution_leftmost_only fakeEnv contextFirst ask w
                [manual] eq_refl) as (Hclassify & _ & _).
    apply (Hclassify "Q: " " / again: {query}"); reflexivity.
  - destruct (@substitution_leftmost_only fakeEnv contextFirst ask w
                [manual] eq_refl) as (_ & Hrespond & _).
    destruct (Hrespond "Context: " " Question: {query}"
                eq_refl eq_refl eq_refl) as [Hinside _].
    apply (Hinside "Write " " where the question goes."); reflexivity.
  - destruct (@substitution_leftmost_only fakeEnv queryFirst ask w
                [manual] eq_refl) as (_ & Hrespond & _).
    destruct (Hrespond "Question: {query} Context: " EmptyString
                eq_refl eq_refl eq_refl) as (_ & _ & Hbefore).
    apply (Hbefore "Question: " " Context: "); reflexivity.
  - destruct (@substitution_leftmost_only fakeEnv contextFirst ask w
                [asHit midterm] eq_refl) as (_ & _ & Hsent).
    apply (Hsent (embed ask) w w); [discriminate | reflexivity | reflexivity].
Defined.

(** Three chunks built within one millisecond get three consecutive
    identifiers. *)
Lemma point_ids_distinct_witness :
  let texts := ["Midterm exams"; "are in"; "October."] in
  let embeds := map embed texts in
  length embeds = length texts
  /\ exists pts,
       fst (fst (run fakeEnv (makePoints embeds texts 0) (emptyWorld silent)))
       = inr pts
       /\ map id pts = [1700000000000; 1700000000001; 1700000000002]%Z
       /\ StronglySorted Z.lt (map id pts)
       /\ NoDup (map id pts).
Proof.
  cbv zeta. split; [reflexivity|].
  destruct (@point_ids_distinct fakeEnv
              (map embed ["Midterm exams"; "are in"; "October."])
              ["Midterm exams"; "are in"; "October."]
              (emptyWorld silent) eq_refl)
    as (pts & w' & tr & Hrun & _ & _ & Hsorted).
  exists pts. rewrite Hrun. split; [reflexivity|].
  vm_compute in Hrun. injection Hrun as Hpts _ Htr.
  subst pts tr. split; [reflexivity|].
  apply Hsorted. repeat constructor; discriminate.
Defined.

(** The configuration of the example names its four fields, and the
    Qdrant client refuses its url: construction throws although
    nothing is missing, and the error is not the configuration
    error. *)
Lemma construct_rejects_complete_config :
  ~ (absent (googleApiKey sampleConfig) \/ absent (qdrantUrl sampleConfig) \/
     absent (qdrantApiKey sampleConfig) \/ absent (groqApiKey sampleConfig))
  /\ qdrantUrl sampleConfig = Some "your-qdrant-url"
  /\ exists e,
       construct qdrantRest sampleConfig = inl e
       /\ e <> newError "Required configuration parameters are missing".
Proof.
  split; [|split; [reflexivity|]].
  - unfold absent. cbn.
    intros [[H|H]|[[H|H]|[[H|H]|[H|H]]]]; discriminate H.
  - eexists. split; [reflexivity | discriminate].
Qed.

(** A missing credential; a complete configuration whose url names its
    scheme; the complete configuration of the example, refused by the
    Qdrant client. *)
Lemma construct_fail_fast_witness :
  (forall (rest : RAGImplementation -> Prog RAGResponse),
      run fakeEnv
        (createRAG qdrantRest
           {| googleApiKey := None;
              qdrantUrl := Some "https://your-cluster.qdrant.example:6333";
              qdrantApiKey := Some "your-qdrant-api-key";
              groqApiKey := Some "your-groq-api-key";
              cfg_collectionName := None;
              cfg_fallbackResponse := None;
              cfg_prompts := None |} rest)
        (emptyWorld silent)
      = (inl (newError "Required configuration parameters are missing"),
         emptyWorld silent, []))
  /\ (exists this,
        construct qdrantRest reachableConfig = inr this
        /\ collectionName this = "default_collection")
  /\ (forall e,
        construct qdrantRest sampleConfig = inl e ->
        qdrantThrows qdrantRest "your-qdrant-url" "your-qdrant-api-key"
        = Some e).
Proof.
  split; [|split].
  - intros rest.
    pose (config := {| googleApiKey := None;
                       qdrantUrl := Some "https://your-cluster.qdrant.example:6333";
                       qdrantApiKey := Some "your-qdrant-api-key";
                       groqApiKey := Some "your-groq-api-key";
                       cfg_collectionName := None;
                       cfg_fallbackResponse := None;
                       cfg_prompts := None |}).
    destruct (construct_fail_fast qdrantRest config) as (Hguard & _).
    apply Hguard. left. left. reflexivity.
  - destruct (construct_fail_fast qdrantRest reachableConfig)
      as (_ & Hpresent).
    destruct (Hpresent "your-google-api-key"
                "https://your-cluster.qdrant.example:6333"
                "your-qdrant-api-key" "your-groq-api-key")
      as [_ Hbuilt];
      try reflexivity; try discriminate.
    destruct Hbuilt as (this & Hthis & Hdefault & _); try reflexivity.
    exists this. split; [exact Hthis | now apply Hdefault].
  - intros e He.
    destruct (construct_fail_fast qdrantRest sampleConfig)
      as (_ & Hpresent).
    destruct (Hpresent "your-google-api-key" "your-qdrant-url"
                "your-qdrant-api-key" "your-groq-api-key")
      as [Horigin _];
      try reflexivity; try discriminate.
    destruct (Horigin e He) as [H|[H|H]];
      [exact H | discriminate H | discriminate H].
Defined.

Lemma updatePrompts_frame_witness :
  let after :=
    updatePrompts sampleRag
      {| new_classification := Some "X"; new_response := None |} in
  classification (prompts after) = "X"
  /\ response (prompts after) = defaultResponsePrompt
  /\ collectionName after = "custom-collection"
  /\ fallbackResponse after = "Sorry, I could not find relevant information.".
Proof.
  cbv zeta.
  destruct (updatePrompts_frame sampleRag
              {| new_classification := Some "X"; new_response := None |})
    as (Hset & _ & _ & Hkeep & Hname & Hfallback & _).
  split; [now apply Hset|]. split; [now apply Hkeep|].
  split; [exact Hname | exact Hfallback].
Defined.

(** Twenty-five points and a store that accepts two upserts: three
    batches are sent, the third is rejected, the call throws, and the
    store holds the first twenty points. *)
Example upsert_stops_at_rejection :
  let pts := map bare [1;2;3;4;5;6;7;8;9;10;11;12;13;14;15;16;17;18;19;20;
                       21;22;23;24;25]%Z in
  let r := run fakeEnv (upsertFrom "custom-collection" pts 0)
             (worldWith [] 2 silent) in
  fst (fst r) = inl unavailable
  /\ snd r
     = [acknowledged "custom-collection" pts 0;
        acknowledged "custom-collection" pts 1;
        Requested (Upsert "custom-collection"
                     {| points := batch 2 pts; wait := true |})
                  (Rejected unavailable)]
  /\ map (@length Point) [batch 0 pts; batch 1 pts; batch 2 pts] = [10; 10; 5]
  /\ option_map contents (lookup "custom-collection" (store (snd (fst r))))
     = Some (firstn 20 pts).
Proof. cbv zeta. repeat split; vm_compute; reflexivity. Qed.

(** The whole pipeline on the scenario of the specification, with a
    chat provider that echoes its prompt: the answer is the response
    template filled with the two stored chunks and the query, and the
    requests go out in the order classify, split, embed, ensure,
    upsert, embed, search, answer. *)
Example processQuery_end_to_end :
  let source := "Midterm exams are in October." ++ String "010" "Sports day is in November." in
  let r := run fakeEnv (processQuery sampleRag source "When is the midterm?")
             (emptyWorld echo) in
  (exists category,
      fst (fst r)
      = inr {| rr_response :=
                 "You are a helpful assistant. Based on this context: "
                 ++ String "034" "Midterm exams are in October. Sports day is in November."
                 ++ String "034" ", please answer this question: "
                 ++ String "034" "When is the midterm?"
                 ++ String "034" ". If you cannot find a relevant answer in the context, please say so.";
               rr_category := category |})
  /\ map (fun q => match q with
                   | GetCollection _ => "getCollection"
                   | CreateCollection _ _ => "createCollection"
                   | Upsert _ _ => "upsert"
                   | Search _ _ => "search"
                   | EmbedQuery _ => "embedQuery"
                   | ChatCreate _ => "chat"
                   | SplitText _ _ => "splitText"
                   end) (requestsOf (snd r))
     = ["chat"; "splitText"; "embedQuery"; "embedQuery"; "getCollection";
        "createCollection"; "upsert"; "embedQuery"; "search"; "chat"]
  /\ option_map contents (lookup "custom-collection" (store (snd (fst r))))
     = Some [midterm; sports].
Proof.
  cbv zeta. split; [eexists; vm_compute; reflexivity|].
  split; vm_compute; reflexivity.
Qed.

End Instances.

(** ** Further properties of the methods *)

Section Failures.
Variable E : Env.
Variable this : RAGImplementation.

(** X1. A rejection of the chat request is thrown by [classifyQuery] as
    it is: the label [general] stands in for an empty content only,
    never for a failure of the provider. *)
Theorem classifyQuery_provider_failure (query : string) (w : World E)
  (error : Error) (w1 : World E) :
  let ask := ChatCreate
               (singleTurn (replace (classification (prompts this))
                                    "{query}" query)) in
  handle E ask w = (inl error, w1) ->
  run E (classifyQuery this query) w
  = (inl error, w1, [Requested ask (Rejected error)]).
Proof.
  cbv zeta. intros Hask. unfold classifyQuery, await.
  cbn [bind run]. rewrite Hask. reflexivity.
Qed.

(** X2. [getBotResponse] turns no failure into the fallback text: a
    rejected embedding is thrown before any search, and a rejected
    search (a collection that does not exist, say) is thrown before any
    chat request. *)
Theorem getBotResponse_failures (userInput : string) (w : World E) :
  (forall error w1,
      handle E (EmbedQuery userInput) w = (inl error, w1) ->
      run E (getBotResponse this userInput) w
      = (inl error, w1, [Requested (EmbedQuery userInput) (Rejected error)]))
  /\ (forall queryEmbed w1 error w2,
      handle E (EmbedQuery userInput) w = (inr queryEmbed, w1) ->
      handle E (Search (collectionName this)
                  {| query_vector := queryEmbed; limit := 3 |}) w1
      = (inl error, w2) ->
      run E (getBotResponse this userInput) w
      = (inl error, w2,
         [Requested (EmbedQuery userInput) (GotVector queryEmbed);
          Requested (Search (collectionName this)
                       {| query_vector := queryEmbed; limit := 3 |})
                    (Rejected error)])).
Proof.
  unfold getBotResponse, await. split.
  - intros error w1 Hembed. cbn [bind run]. rewrite Hembed. reflexivity.
  - intros queryEmbed w1 error w2 Hembed Hsearch.
    cbn [bind run]. rewrite Hembed. cbn [bind run]. rewrite Hsearch.
    reflexivity.
Qed.

(** X3. [getBotResponse] only reads: in every environment its requests
    are the embedding of the query, then at most one search of the
    instance's collection with limit 3, then at most one chat request;
    it never looks up, creates or upserts anything. *)
Theorem getBotResponse_read_only (userInput : string) (w : World E) :
  let sent := requestsOf (snd (run E (getBotResponse this userInput) w)) in
  sent = [EmbedQuery userInput]
  \/ exists queryEmbed,
       let search := Search (collectionName this)
                       {| query_vector := queryEmbed; limit := 3 |} in
       sent = [EmbedQuery userInput; search]
       \/ exists hits,
            sent = [EmbedQuery userInput; search;
                    ChatCreate (singleTurn
                                  (responsePrompt this hits userInput))].
Proof.
  cbv zeta. unfold getBotResponse, await. cbn [bind run].
  destruct (handle E (EmbedQuery userInput) w) as [[e|queryEmbed] w1];
    [left; reflexivity|].
  right. exists queryEmbed. cbn [bind run].
  destruct (handle E _ w1) as [[e|hits] w2]; [left; reflexivity|].
  destruct hits as [|hit rest]; [left; reflexivity|].
  right. exists (hit :: rest). cbn [bind run].
  destruct (handle E _ w2) as [[e|completion] w3]; reflexivity.
Qed.

(** X4. A collection that is found without a [vectors] entry is treated
    as a size mismatch: the call throws and creates nothing. *)
Theorem ensureCollection_without_vectors (vectorSize : Z) (w : World E)
  (collection : CollectionInfo) (w1 : World E) :
  handle E (GetCollection (collectionName this)) w = (inr collection, w1) ->
  vectors collection = None ->
  run E (ensureCollection this vectorSize) w
  = (inl (newError ("Vector size mismatch. Expected: "
                    ++ numberToString vectorSize)), w1,
     [Requested (GetCollection (collectionName this))
                (GotCollection collection)]).
Proof.
  intros Hget Hnone. unfold ensureCollection, await.
  cbn [bind tryCatch run]. rewrite Hget. cbn [bind tryCatch run].
  unfold sizeDiffers. rewrite Hnone. reflexivity.
Qed.

(** X5. [ensureCollection] asks for a creation only after the lookup was
    rejected with status 404, and then for the collection of the
    instance with the size it was called with. *)
Theorem ensureCollection_creates_only_on_404 (vectorSize : Z) (w : World E)
  (name : string) (params : CreateParams) :
  In (CreateCollection name params)
     (requestsOf (snd (run E (ensureCollection this vectorSize) w))) ->
  name = collectionName this
  /\ params = creation vectorSize
  /\ exists error w1,
       handle E (GetCollection (collectionName this)) w = (inl error, w1)
       /\ status error = Some 404%Z.
Proof.
  unfold ensureCollection, await. cbn [bind tryCatch run].
  destruct (handle E (GetCollection (collectionName this)) w)
    as [[error|collection] w1] eqn:Hget; cbn [bind tryCatch run].
  - unfold is404. destruct (status error) as [s|] eqn:Hs.
    + destruct (Z.eqb_spec s 404) as [->|Hne].
      * cbn [run]. destruct (handle E _ w1) as [[e|[]] w2];
          cbn; intros [H|[H|[]]]; try discriminate H;
          injection H as <- <-; repeat split; eauto.
      * cbn. intros [H|[]]. discriminate H.
    + cbn. intros [H|[]]. discriminate H.
  - destruct (sizeDiffers collection vectorSize);
      cbn; intros [H|[]]; discriminate H.
Qed.

End Failures.

Section Configuration.
Variable E : Env.

Lemma or_else_empty (d : string) : or_else (Some EmptyString) d = d.
Proof. reflexivity. Qed.

Lemma missing_false (x : option string) :
  missing x = false -> exists s, x = Some s /\ s <> EmptyString /\ required x = s.
Proof.
  unfold missing, falsy. destruct x as [s|]; [|discriminate].
  intros H. apply String.eqb_neq in H. now exists s.
Qed.

(** X6. An instance that the constructor returns holds the four
    required values as they were given, and none of its collection
    name, fallback text and two templates is empty: an optional field
    given as the empty string is replaced by its default like a field
    that is not given. *)
Theorem constructor_fills_defaults (config : RAGConfig)
  (this : RAGImplementation) :
  constructor config = inr this ->
  (qdrantUrl config = Some (qc_url (qdrantClient this))
   /\ qdrantApiKey config = Some (qc_apiKey (qdrantClient this))
   /\ googleApiKey config = Some (ge_apiKey (embeddings this))
   /\ groqApiKey config = Some (groq_apiKey (groqClient this)))
  /\ (collectionName this <> EmptyString
      /\ fallbackResponse this <> EmptyString
      /\ classification (prompts this) <> EmptyString
      /\ response (prompts this) <> EmptyString)
  /\ (cfg_collectionName config = Some EmptyString ->
      collectionName this = "default_collection")
  /\ (cfg_fallbackResponse config = Some EmptyString ->
      fallbackResponse this
      = "I could not find relevant information for your query.")
  /\ (forall given,
        cfg_prompts config = Some given ->
        (new_classification given = None \/
         new_classification given = Some EmptyString ->
         classification (prompts this) = defaultClassificationPrompt)
        /\ (new_response given = None \/
            new_response given = Some EmptyString ->
            response (prompts this) = defaultResponsePrompt)).
Proof.
  unfold constructor. intros Hbuilt.
  destruct (missing (googleApiKey config)) eqn:Hg; [discriminate Hbuilt|].
  destruct (missing (qdrantUrl config)) eqn:Hu; [discriminate Hbuilt|].
  destruct (missing (qdrantApiKey config)) eqn:Hk; [discriminate Hbuilt|].
  destruct (missing (groqApiKey config)) eqn:Hq; [discriminate Hbuilt|].
  cbn [orb] in Hbuilt. injection Hbuilt as <-.
  cbn [qdrantClient embeddings groqClient collectionName fallbackResponse
       prompts classification response qc_url qc_apiKey ge_apiKey groq_apiKey].
  apply missing_false in Hg as (g & Hg & _ & Hg').
  apply missing_false in Hu as (u & Hu & _ & Hu').
  apply missing_false in Hk as (k & Hk & _ & Hk').
  apply missing_false in Hq as (q & Hq & _ & Hq').
  split; [|split; [|split; [|split]]].
  - rewrite Hu', Hk', Hg', Hq'. now repeat split.
  - repeat split; apply or_else_nonempty; discriminate.
  - intros ->. reflexivity.
  - intros ->. reflexivity.
  - intros given ->. cbn [promptField]. split; intros [H|H]; rewrite H; reflexivity.
Qed.

(** X7. Two updates of the templates in a row amount to one update with
    the merged record, the later fields winning; an update that
    supplies nothing changes nothing; and an update, unlike the
    constructor, stores an empty template as it is given. *)
Theorem updatePrompts_compose (this : RAGImplementation)
  (first second : PartialPrompts) :
  updatePrompts (updatePrompts this first) second
  = updatePrompts this (mergePrompts first second)
  /\ updatePrompts this {| new_classification := None; new_response := None |}
     = this
  /\ classification
       (prompts (updatePrompts this
                   {| new_classification := Some EmptyString;
                      new_response := new_response first |}))
     = EmptyString.
Proof.
  split; [|split].
  - unfold updatePrompts, mergePrompts. cbn.
    destruct (new_classification second), (new_response second); reflexivity.
  - destruct this as [qc ge gq name fb [c r]]. reflexivity.
  - reflexivity.
Qed.

(** X8. A template without its placeholder is sent as it stands: with a
    classification template that does not contain [{query}] the chat
    request of [classifyQuery] is the same for every query, and a
    response template that contains neither [{context}] nor [{query}]
    gives a prompt without the retrieved text and without the query. *)
Theorem prompt_without_placeholder (this : RAGImplementation)
  (query : string) (w : World E) (hits : list Hit) :
  (occurs "{query}" (classification (prompts this)) = false ->
   requestsOf (snd (run E (classifyQuery this query) w))
   = [ChatCreate (singleTurn (classification (prompts this)))])
  /\ (occurs "{context}" (response (prompts this)) = false ->
      occurs "{query}" (response (prompts this)) = false ->
      responsePrompt this hits query = response (prompts this)).
Proof.
  split.
  - intros Hnone. unfold classifyQuery, await.
    rewrite replace_absent by assumption. cbn [bind run].
    destruct (handle E _ w) as [[e|completion] w1]; reflexivity.
  - intros Hcontext Hquery. unfold responsePrompt.
    rewrite (@replace_absent (response (prompts this)) "{context}")
      by assumption.
    now apply replace_absent.
Qed.

End Configuration.

(** ** The indexing call as a whole *)

Section Indexing.
Local Open Scope list_scope.
Variable E : Env.
Variable this : RAGImplementation.

Lemma run_bind_ok {A B} (p : Prog A) (f : A -> Prog B) (w : World E)
  (b : B) (w' : World E) (tr : list Event) :
  run E (bind p f) w = (inr b, w', tr) ->
  exists a w1 tr1 tr2,
    run E p w = (inr a, w1, tr1)
    /\ run E (f a) w1 = (inr b, w', tr2)
    /\ tr = tr1 ++ tr2.
Proof.
  rewrite run_bind.
  destruct (run E p w) as [[[e|a] w1] tr1]; [discriminate|].
  destruct (run E (f a) w1) as [[r2 w2] tr2] eqn:Hf.
  intros H. injection H as -> -> <-.
  exists a, w1, tr1, tr2. now repeat split.
Qed.

Lemma flat_map_nil {A B} (f : A -> list B) (l : list A) :
  Forall (fun x => f x = []) l -> flat_map f l = [].
Proof.
  induction 1 as [|x l Hx _ IH]; [reflexivity|].
  cbn. now rewrite Hx, IH.
Qed.

(** Every embedding request goes out, in the order of the texts,
    whatever the answers. *)
Lemma embedEach_run (texts : list string) :
  forall w : World E,
    exists settled w',
      run E (embedEach texts) w
      = (inr settled, w', map (uncurry embedEvent)
                              (combine texts settled))
      /\ length settled = length texts.
Proof.
  induction texts as [|t rest IH]; intros w.
  - exists [], w. split; reflexivity.
  - cbn [embedEach run]. destruct (handle E (EmbedQuery t) w) as [x w1].
    destruct (IH w1) as (settled & w' & Hrun & Hlen).
    rewrite run_bind, Hrun. cbn [run].
    exists (x :: settled), w'. split.
    + rewrite app_nil_r. cbn [combine map answerOf embedEvent uncurry].
      destruct x; reflexivity.
    + cbn. now rewrite Hlen.
Qed.

(** [Promise.all] sends nothing: it hands back the vectors when all the
    promises are fulfilled and the leftmost rejection otherwise. *)
Lemma promiseAll_run {A} (settled : list (Settled A)) (w : World E) :
  exists res,
    run E (promiseAll settled) w = (res, w, [])
    /\ (forall vs, res = inr vs -> settled = map inr vs)
    /\ (forall e, res = inl e -> In (inl e) settled)
    /\ ((exists e, In (inl e) settled) -> exists e, res = inl e).
Proof.
  induction settled as [|[e|v] rest IH].
  - exists (inr []). cbn. split; [reflexivity|]. split; [|split].
    + intros vs H. injection H as <-. reflexivity.
    + intros e H. discriminate H.
    + intros [e []].
  - exists (inl e). cbn. split; [reflexivity|]. split; [|split].
    + intros vs H. discriminate H.
    + intros e' H. injection H as <-. now left.
    + intros _. now exists e.
  - destruct IH as (res & Hrun & Hok & Hbad & Hsome).
    cbn [promiseAll]. rewrite run_bind, Hrun.
    destruct res as [e|vs].
    + exists (inl e). split; [reflexivity|]. split; [|split].
      * intros vs H. discriminate H.
      * intros e' H. injection H as <-. right. now apply Hbad.
      * intros _. now exists e.
    + exists (inr (v :: vs)). cbn. split; [reflexivity|]. split; [|split].
      * intros vs' H. injection H as <-. cbn. f_equal. now apply Hok.
      * intros e H. discriminate H.
      * intros [e [H|H]]; [discriminate H|].
        destruct Hsome as [e' He']; [now exists e | discriminate He'].
Qed.

(** The events of [ensureCollection] are lookups and creations on the
    collection of the instance, however the call ends. *)
Lemma ensureCollection_provisions (vectorSize : Z) (w : World E) :
  Forall (provisioning (collectionName this))
         (snd (run E (ensureCollection this vectorSize) w)).
Proof.
  unfold ensureCollection, await. cbn [bind tryCatch run].
  destruct (handle E (GetCollection (collectionName this)) w)
    as [[error|collection] w1]; cbn [bind tryCatch run].
  - destruct (is404 error); cbn [run].
    + destruct (handle E _ w1) as [[e|[]] w2]; cbn;
        repeat constructor.
    + cbn. repeat constructor.
  - destruct (sizeDiffers collection vectorSize); cbn; repeat constructor.
Qed.

(** Building the points sends nothing: its events are clock reads. *)
Lemma makePoints_reads_clock (embeds : list Vector) (texts : list string) :
  forall (i : nat) (w : World E),
    Forall (fun ev => exists t, ev = ClockRead t)
           (snd (run E (makePoints embeds texts i) w)).
Proof.
  induction texts as [|t rest IH]; intros i w; [constructor|].
  cbn [makePoints run]. destruct (clock E w) as [now w1].
  destruct (nth_error embeds i) as [v|].
  - cbn [run]. destruct (clock E w1) as [stamp w2].
    rewrite run_bind. specialize (IH (S i) w2).
    destruct (run E (makePoints embeds rest (S i)) w2) as [[[e|ps] w3] tr];
      cbn [snd] in IH |- *.
    + constructor; [now exists now|]. constructor; [now exists stamp|]. exact IH.
    + cbn [run]. rewrite app_nil_r.
      constructor; [now exists now|]. constructor; [now exists stamp|]. exact IH.
  - cbn. constructor; [now exists now | constructor].
Qed.

Lemma skipn_nth_error {A} (l : list A) :
  forall (i : nat) (v : A),
    nth_error l i = Some v -> skipn i l = v :: skipn (S i) l.
Proof.
  induction l as [|x l IH]; intros [|i] v H; try discriminate H.
  - injection H as <-. reflexivity.
  - cbn in H. apply IH in H. exact H.
Qed.

(** The points built from ordinal [i] on carry, chunk by chunk, the
    trimmed text, the embedding of the same index and the ordinal. *)
Lemma makePoints_aligned_from (embeds : list Vector) (texts : list string) :
  forall (i : nat) (w : World E) pts w' tr,
    run E (makePoints embeds texts i) w = (inr pts, w', tr) ->
    map (fun p => text (payload p)) pts = map trim texts
    /\ map vector pts = firstn (length texts) (skipn i embeds)
    /\ map (fun p => chunkIndex (payload p)) pts = seq i (length texts).
Proof.
  induction texts as [|t rest IH]; intros i w pts w' tr Hrun.
  - cbn in Hrun. injection Hrun as <- _ _. now repeat split.
  - cbn [makePoints run] in Hrun. destruct (clock E w) as [now w1].
    destruct (nth_error embeds i) as [v|] eqn:Hv; [|discriminate Hrun].
    cbn [run] in Hrun. destruct (clock E w1) as [stamp w2].
    rewrite run_bind in Hrun.
    destruct (run E (makePoints embeds rest (S i)) w2) as [[[e|ps] w3] tr']
      eqn:Hrest; [discriminate Hrun|].
    cbn [run] in Hrun. injection Hrun as <- _ _.
    destruct (IH (S i) w2 ps w3 tr' Hrest) as (Htext & Hvec & Hidx).
    cbn [map length seq firstn payload text vector chunkIndex].
    rewrite Htext, Hvec, Hidx, (skipn_nth_error _ _ Hv). now repeat split.
Qed.

Lemma requests_of_embeds (texts : list string) :
  forall settled : list (Settled Vector),
    length settled = length texts ->
    requestsOf (map (uncurry embedEvent) (combine texts settled))
    = map EmbedQuery texts.
Proof.
  induction texts as [|t rest IH]; intros [|x settled] Hlen;
    try discriminate Hlen; [reflexivity|].
  cbn. f_equal. apply IH. now injection Hlen.
Qed.

(** The call once the guard is passed and the splitter has answered:
    the embedding requests, then what follows [Promise.all]. *)
Lemma createVectorStore_after_split (input : string) (w : World E)
  (texts : list string) (w1 : World E)
  (settled : list (Settled Vector)) (w2 : World E) (tr : list Event) :
  allWhiteSpace input = false ->
  handle E (SplitText splitterOptions input) w = (inr texts, w1) ->
  run E (embedEach texts) w1 = (inr settled, w2, tr) ->
  run E (createVectorStore this input) w
  = let '(res, w', rest) :=
      run E (embeds <- promiseAll settled ;;
             match embeds with
             | [] => Throw typeError
             | first :: _ =>
                 ensureCollection this (Z.of_nat (length first)) ;;
                 pts <- makePoints embeds texts 0 ;;
                 upsertFrom (collectionName this) pts 0
             end) w2 in
    (res, w',
     Requested (SplitText splitterOptions input) (GotTexts texts)
     :: tr ++ rest).
Proof.
  intros Htext Hsplit Hembed. unfold createVectorStore, await.
  rewrite falsy_trim, Htext. cbn [bind run]. rewrite Hsplit.
  cbn [bind run answerOf]. rewrite run_bind, Hembed.
  match goal with
  | |- context [run E ?p w2] => destruct (run E p w2) as [[res w'] rest]
  end.
  reflexivity.
Qed.

(** X9. When the splitter hands back no chunk the call throws the
    TypeError of reading the length of a missing first embedding:
    nothing is embedded and the vector store is not contacted. *)
Theorem createVectorStore_no_chunks (input : string) (w w1 : World E) :
  allWhiteSpace input = false ->
  handle E (SplitText splitterOptions input) w = (inr [], w1) ->
  run E (createVectorStore this input) w
  = (inl typeError, w1,
     [Requested (SplitText splitterOptions input) (GotTexts [])]).
Proof.
  intros Htext Hsplit.
  rewrite (@createVectorStore_after_split input w [] w1 [] w1 []
             Htext Hsplit eq_refl).
  reflexivity.
Qed.

(** X10. When an embedding is rejected the call throws a rejection of
    one of the embeddings, after every chunk's embedding was requested
    in chunk order and before the vector store is contacted. *)
Theorem createVectorStore_embedding_failure (input : string) (w : World E)
  (texts : list string) (w1 : World E)
  (settled : list (Settled Vector)) (w2 : World E) (tr : list Event)
  (error : Error) :
  allWhiteSpace input = false ->
  handle E (SplitText splitterOptions input) w = (inr texts, w1) ->
  run E (embedEach texts) w1 = (inr settled, w2, tr) ->
  In (inl error) settled ->
  exists thrown,
    In (inl thrown) settled
    /\ run E (createVectorStore this input) w
       = (inl thrown, w2,
          Requested (SplitText splitterOptions input) (GotTexts texts) :: tr)
    /\ requestsOf tr = map EmbedQuery texts.
Proof.
  intros Htext Hsplit Hembed Hbad.
  rewrite (@createVectorStore_after_split _ _ _ _ _ _ _ Htext Hsplit Hembed).
  destruct (promiseAll_run settled w2) as (res & Hall & _ & Hin & Hsome).
  destruct Hsome as [thrown ->]; [now exists error|].
  exists thrown. split; [now apply Hin|]. split.
  - rewrite run_bind, Hall. now rewrite app_nil_r.
  - destruct (embedEach_run texts w1) as (settled' & w2' & Hrun & Hlen).
    rewrite Hrun in Hembed. injection Hembed as -> _ <-.
    now apply requests_of_embeds.
Qed.

Lemma promiseAll_fulfilled {A} (vs : list A) (w : World E) :
  run E (promiseAll (map inr vs)) w = (inr vs, w, []).
Proof.
  destruct (promiseAll_run (map inr vs) w) as (res & Hrun & Hok & Hbad & _).
  rewrite Hrun. destruct res as [e|vs'].
  - specialize (Hbad e eq_refl). apply in_map_iff in Hbad as (v & H & _).
    discriminate H.
  - specialize (Hok vs' eq_refl). f_equal. f_equal. f_equal.
    clear Hrun Hbad. revert vs' Hok.
    induction vs as [|v vs IH]; intros [|v' vs'] H;
      try discriminate H; [reflexivity|].
    injection H as -> H. f_equal. now apply IH.
Qed.

(** X11. The size that the collection must have is the length of the
    first embedding.  When the collection exists with another size the
    call throws the mismatch error naming that length, after the
    embeddings and the lookup, and no point is sent. *)
Theorem createVectorStore_size_mismatch (input : string) (w : World E)
  (texts : list string) (w1 : World E)
  (first : Vector) (more : list Vector) (w2 : World E) (tr : list Event)
  (collection : CollectionInfo) (declared : VectorParams) (w3 : World E) :
  allWhiteSpace input = false ->
  handle E (SplitText splitterOptions input) w = (inr texts, w1) ->
  run E (embedEach texts) w1 = (inr (map inr (first :: more)), w2, tr) ->
  handle E (GetCollection (collectionName this)) w2 = (inr collection, w3) ->
  vectors collection = Some declared ->
  size declared <> Z.of_nat (length first) ->
  run E (createVectorStore this input) w
  = (inl (newError ("Vector size mismatch. Expected: "
                    ++ numberToString (Z.of_nat (length first)))%string),
     w3,
     Requested (SplitText splitterOptions input) (GotTexts texts)
     :: tr ++ [Requested (GetCollection (collectionName this))
                         (GotCollection collection)]).
Proof.
  intros Htext Hsplit Hembed Hget Hdeclared Hsize.
  rewrite (@createVectorStore_after_split _ _ _ _ _ _ _ Htext Hsplit Hembed).
  rewrite run_bind, promiseAll_fulfilled. rewrite run_bind.
  unfold ensureCollection, await. cbn [bind tryCatch run].
  rewrite Hget. cbn [bind tryCatch run].
  unfold sizeDiffers. rewrite Hdeclared.
  apply Z.eqb_neq in Hsize. rewrite Hsize. reflexivity.
Qed.

Lemma embed_trace_projections (texts : list string) :
  forall embeds : list Vector,
    length embeds = length texts ->
    let tr := map (uncurry embedEvent)
                  (combine texts (map inr embeds)) in
    upserted tr = [] /\ chunksOf tr = [] /\ clockReadings tr = []
    /\ embeddingsOf tr = embeds.
Proof.
  induction texts as [|t rest IH]; intros [|v embeds] Hlen;
    try discriminate Hlen; [now repeat split|].
  destruct (IH embeds) as (Hu & Hc & Hk & He); [now injection Hlen|].
  cbv zeta in *. unfold upserted, chunksOf, clockReadings, embeddingsOf in *.
  cbn [map combine flat_map embedEvent app uncurry].
  rewrite Hu, Hc, Hk, He. now repeat split.
Qed.

Lemma provisioning_projections (name : string) (tr : list Event) :
  Forall (provisioning name) tr ->
  upserted tr = [] /\ chunksOf tr = [] /\ clockReadings tr = []
  /\ embeddingsOf tr = [].
Proof.
  intros H. repeat split; apply flat_map_nil; eapply Forall_impl; try exact H;
    intros [[] a|t] Hev; cbn in Hev; try contradiction; reflexivity.
Qed.

Lemma clock_projections (tr : list Event) :
  Forall (fun ev => exists t, ev = ClockRead t) tr ->
  upserted tr = [] /\ chunksOf tr = [] /\ embeddingsOf tr = [].
Proof.
  intros H. repeat split; apply flat_map_nil; eapply Forall_impl; try exact H;
    intros ev [t ->]; reflexivity.
Qed.

Lemma acknowledged_projections (name : string) (pts : list Point) (j : nat) :
  forall k,
    let tr := map (acknowledged name pts) (seq k j) in
    upserted tr = concat (map (fun i => batch i pts) (seq k j))
    /\ chunksOf tr = [] /\ clockReadings tr = [] /\ embeddingsOf tr = [].
Proof.
  induction j as [|j IH]; intros k; [now repeat split|].
  destruct (IH (S k)) as (Hu & Hc & Hk & He).
  cbv zeta in *. unfold upserted, chunksOf, clockReadings, embeddingsOf in *.
  cbn [map seq flat_map acknowledged app concat points].
  rewrite Hu, Hc, Hk, He. now repeat split.
Qed.

(** X12. When the indexing call returns, the store has acknowledged
    exactly one point per chunk of the splitter, in chunk order: the
    point of chunk [k] carries the trimmed chunk, the embedding that
    was delivered for it and the ordinal [k]; there is at least one
    chunk; and when the clock readings of the call never go down the
    identifiers of the acknowledged points are pairwise distinct. *)
Theorem createVectorStore_success (input : string) (w w' : World E)
  (tr : list Event) :
  run E (createVectorStore this input) w = (inr tt, w', tr) ->
  chunksOf tr <> []
  /\ map (fun p => text (payload p)) (upserted tr) = map trim (chunksOf tr)
  /\ map vector (upserted tr) = embeddingsOf tr
  /\ map (fun p => chunkIndex (payload p)) (upserted tr)
     = seq 0 (length (chunksOf tr))
  /\ (Sorted Z.le (clockReadings tr) -> NoDup (map id (upserted tr))).
Proof.
  intros Hrun. unfold createVectorStore in Hrun.
  destruct (falsy (trim input)); [discriminate Hrun|].
  apply run_bind_ok in Hrun as (texts & w1 & tr1 & tr2 & Hsplit & Hrun & ->).
  rewrite run_await in Hsplit. injection Hsplit as Htexts _ <-.
  rewrite Htexts. cbn [answerOf]. clear Htexts.
  apply run_bind_ok in Hrun as (settled & w2 & tr_e & tr3 & Hembed & Hrun & ->).
  apply run_bind_ok in Hrun as (embeds & w2' & tr_a & tr4 & Hall & Hrun & ->).
  destruct (promiseAll_run settled w2) as (res & Hall' & Hok & _).
  rewrite Hall' in Hall. injection Hall as -> <- <-.
  specialize (Hok embeds eq_refl). subst settled.
  destruct (embedEach_run texts w1) as (settled' & w2'' & Hembed' & Hlen).
  rewrite Hembed' in Hembed. injection Hembed as -> _ <-.
  rewrite length_map in Hlen.
  destruct embeds as [|first more]; [discriminate Hrun|].
  apply run_bind_ok in Hrun as ([] & w3 & tr_c & tr5 & Hensure & Hrun & ->).
  apply run_bind_ok in Hrun as (pts & w4 & tr_p & tr_u & Hpoints & Hupsert & ->).
  (* the five stretches of the trace *)
  destruct (embed_trace_projections texts (first :: more) Hlen)
    as (Heu & Hec & Hek & Hee).
  pose proof (ensureCollection_provisions (Z.of_nat (length first)) w2) as Hc.
  rewrite Hensure in Hc. cbn [snd] in Hc.
  apply provisioning_projections in Hc as (Hcu & Hcc & Hck & Hce).
  pose proof (makePoints_reads_clock (first :: more) texts 0 w3) as Hp.
  rewrite Hpoints in Hp. cbn [snd] in Hp.
  apply clock_projections in Hp as (Hpu & Hpc & Hpe).
  destruct (@upsertFrom_run E (collectionName this) pts (batchCount pts) 0 w4)
    as (j & res & w5 & last & Hupsert' & Hend); [lia | lia |].
  change (0 * 10) with 0 in Hupsert'. rewrite Hupsert in Hupsert'.
  injection Hupsert' as <- _ ->.
  destruct Hend as [(_ & Hj & ->)|(e & He & _)]; [|discriminate He].
  cbn [plus] in Hj. subst j.
  destruct (acknowledged_projections (collectionName this) pts
              (batchCount pts) 0) as (Huu & Huc & Huk & Hue).
  assert (Hsent : concat (map (fun i => batch i pts) (seq 0 (batchCount pts)))
                  = pts).
  { rewrite batches_prefix. apply firstn_all2.
    destruct (Nat.le_gt_cases (length pts) (10 * batchCount pts)) as [H|H];
      [exact H|].
    assert (batchCount pts * 10 < length pts) as H' by lia.
    apply batchCount_spec in H'. lia. }
  pose (T := [Requested (SplitText splitterOptions input) (GotTexts texts)]
             ++ map (uncurry embedEvent)
                    (combine texts (map inr (first :: more)))
             ++ [] ++ tr_c ++ tr_p
             ++ map (acknowledged (collectionName this) pts)
                    (seq 0 (batchCount pts)) ++ []).
  change (chunksOf T <> []
          /\ map (fun p => text (payload p)) (upserted T)
             = map trim (chunksOf T)
          /\ map vector (upserted T) = embeddingsOf T
          /\ map (fun p => chunkIndex (payload p)) (upserted T)
             = seq 0 (length (chunksOf T))
          /\ (Sorted Z.le (clockReadings T) -> NoDup (map id (upserted T)))).
  assert (Hupserted : upserted T = pts).
  { unfold T, upserted in *. rewrite !flat_map_app.
    rewrite Heu, Hcu, Hpu, Huu, Hsent. cbn. now rewrite ?app_nil_r. }
  assert (Hchunks : chunksOf T = texts).
  { unfold T, chunksOf in *. rewrite !flat_map_app.
    rewrite Hec, Hcc, Hpc, Huc. cbn. now rewrite ?app_nil_r. }
  assert (Hvectors : embeddingsOf T = first :: more).
  { unfold T, embeddingsOf in *. rewrite !flat_map_app.
    rewrite Hee, Hce, Hpe, Hue. cbn. now rewrite ?app_nil_r. }
  assert (Hclock : clockReadings T = clockReadings tr_p).
  { unfold T, clockReadings in *. rewrite !flat_map_app.
    rewrite Hek, Hck, Huk. cbn. now rewrite ?app_nil_r. }
  rewrite Hupserted, Hchunks, Hvectors, Hclock.
  destruct (makePoints_aligned_from _ _ _ _ Hpoints) as (Htext & Hvec & Hidx).
  split; [|split; [|split; [|split]]].
  - intros ->. discriminate Hlen.
  - exact Htext.
  - rewrite Hvec. cbn [skipn]. apply firstn_all2. now rewrite Hlen.
  - exact Hidx.
  - intros Hsorted.
    destruct (@makePoints_from E (first :: more) texts 0 w3)
      as (pts' & w4' & tr' & Hrun' & _ & _ & Hinc); [rewrite Hlen; lia|].
    rewrite Hpoints in Hrun'. injection Hrun' as <- _ <-.
    apply increasing_NoDup, Hinc.
    apply Sorted_StronglySorted; [|exact Hsorted].
    intros x y z. apply Z.le_trans.
Qed.

Lemma run_bind_Forall {A B} (P : Event -> Prop) (p : Prog A)
  (f : A -> Prog B) (w : World E) :
  Forall P (snd (run E p w)) ->
  (forall a w1, Forall P (snd (run E (f a) w1))) ->
  Forall P (snd (run E (bind p f) w)).
Proof.
  intros Hp Hf. rewrite run_bind.
  destruct (run E p w) as [[[e|a] w1] tr1]; [exact Hp|].
  specialize (Hf a w1). destruct (run E (f a) w1) as [[r2 w2] tr2].
  cbn [snd] in *. apply Forall_app. now split.
Qed.

Lemma requested_in_trace (tr : list Event) (r : Request) :
  In r (requestsOf tr) -> exists a, In (Requested r a) tr.
Proof.
  unfold requestsOf. intros H. apply in_flat_map in H as ([r' a|t] & Hev & Hr).
  - destruct Hr as [<-|[]]. now exists a.
  - destruct Hr.
Qed.

(** X13. Whatever the environment answers, an indexing call asks only
    for the split of its input with chunk size 1000 and overlap 200,
    for embeddings, and for lookups, creations and awaited upserts on
    the collection of the instance: it never searches, never calls the
    chat provider and never touches another collection. *)
Theorem createVectorStore_requests (input : string) (w : World E)
  (r : Request) :
  In r (requestsOf (snd (run E (createVectorStore this input) w))) ->
  indexingRequest (collectionName this) input r.
Proof.
  intros Hin. apply requested_in_trace in Hin as [a Hin].
  assert (Hall : Forall (indexingEvent (collectionName this) input)
                        (snd (run E (createVectorStore this input) w))).
  { unfold createVectorStore. destruct (falsy (trim input)); [constructor|].
    apply run_bind_Forall.
    { rewrite run_await. cbn. repeat constructor. }
    intros texts w1. apply run_bind_Forall.
    { destruct (embedEach_run texts w1) as (settled & w2 & Hrun & _).
      rewrite Hrun. cbn [snd]. apply Forall_forall. intros ev Hev.
      apply in_map_iff in Hev as ([t x] & <- & _). exact I. }
    intros settled w2. apply run_bind_Forall.
    { destruct (promiseAll_run settled w2) as (res & Hrun & _).
      rewrite Hrun. constructor. }
    intros [|first more] w3; [constructor|].
    apply run_bind_Forall.
    { eapply Forall_impl; [|apply ensureCollection_provisions].
      intros [[] b|t] Hev; cbn in Hev |- *; try contradiction; exact Hev. }
    intros _ w4. apply run_bind_Forall.
    { eapply Forall_impl; [|apply makePoints_reads_clock].
      intros ev [t ->]. exact I. }
    intros pts w5.
    destruct (@upsertFrom_run E (collectionName this) pts (batchCount pts) 0 w5)
      as (j & res & w6 & last & Hrun & Hend); [lia | lia |].
    change (0 * 10) with 0 in Hrun. rewrite Hrun. cbn [snd].
    apply Forall_app. split.
    - apply Forall_forall. intros ev Hev.
      apply in_map_iff in Hev as (k & <- & _). cbn. now split.
    - destruct Hend as [(_ & _ & ->)|(e & _ & _ & ->)]; [constructor|].
      repeat constructor. }
  rewrite Forall_forall in Hall. exact (Hall _ Hin).
Qed.

End Indexing.

(** ** The pipeline *)

Section Pipeline.
Local Open Scope list_scope.
Variable E : Env.
Variable this : RAGImplementation.

(** A [catch] block that throws what it caught changes nothing. *)
Lemma run_rethrow {A} (p : Prog A) (w : World E) :
  run E (tryCatch p (fun error => Throw error)) w = run E p w.
Proof.
  revert w. induction p as [a|e|r k IH|k IH]; intros w; cbn; try reflexivity.
  - destruct (handle E r w) as [x w1]. now rewrite IH.
  - destruct (clock E w) as [t w1]. now rewrite IH.
Qed.

(** X14. When the classification request is rejected, [processQuery]
    throws that rejection and has done nothing else: the context is not
    split, embedded or stored, and no answer is asked for. *)
Theorem processQuery_stops_at_classification (contextText query : string)
  (w : World E) (error : Error) (w1 : World E) :
  let ask := ChatCreate
               (singleTurn (replace (classification (prompts this))
                                    "{query}" query)) in
  handle E ask w = (inl error, w1) ->
  run E (processQuery this contextText query) w
  = (inl error, w1, [Requested ask (Rejected error)]).
Proof.
  cbv zeta. intros Hask. unfold processQuery. rewrite run_rethrow.
  unfold classifyQuery, await. cbn [bind run]. rewrite Hask. reflexivity.
Qed.

(** X15. The context is checked only after the query was classified:
    with a blank context [processQuery] throws the empty-input error,
    but the classification request has been sent and answered by
    then. *)
Theorem processQuery_blank_context (contextText query : string)
  (w : World E) (completion : Completion) (w1 : World E) :
  let ask := ChatCreate
               (singleTurn (replace (classification (prompts this))
                                    "{query}" query)) in
  allWhiteSpace contextText = true ->
  handle E ask w = (inr completion, w1) ->
  run E (processQuery this contextText query) w
  = (inl (newError "No text provided for vector store creation"), w1,
     [Requested ask (GotCompletion completion)]).
Proof.
  cbv zeta. intros Hblank Hask. unfold processQuery. rewrite run_rethrow.
  unfold classifyQuery, await. cbn [bind run]. rewrite Hask.
  cbn [bind run]. rewrite run_bind.
  unfold createVectorStore. rewrite falsy_trim, Hblank. reflexivity.
Qed.

(** X16. [processQuery] returns exactly when its three stages return
    one after the other, each starting in the world the previous one
    left: the category is the label of the classification, the
    response is the answer found after the indexing is over, and the
    trace is the three traces in that order. *)
Theorem processQuery_stages (contextText query : string) (w w' : World E)
  (out : RAGResponse) (tr : list Event) :
  run E (processQuery this contextText query) w = (inr out, w', tr)
  <-> exists category w1 t1 w2 t2 answer t3,
        run E (classifyQuery this query) w = (inr category, w1, t1)
        /\ run E (createVectorStore this contextText) w1 = (inr tt, w2, t2)
        /\ run E (getBotResponse this query) w2 = (inr answer, w', t3)
        /\ out = {| rr_response := answer; rr_category := category |}
        /\ tr = t1 ++ t2 ++ t3.
Proof.
  unfold processQuery. rewrite run_rethrow. split.
  - intros Hrun.
    apply run_bind_ok in Hrun as (category & w1 & t1 & r1 & Hc & Hrun & ->).
    apply run_bind_ok in Hrun as ([] & w2 & t2 & r2 & Hi & Hrun & ->).
    apply run_bind_ok in Hrun as (answer & w3 & t3 & r3 & Ha & Hrun & ->).
    cbn in Hrun. injection Hrun as <- <- <-.
    exists category, w1, t1, w2, t2, answer, t3.
    rewrite app_nil_r. now repeat split.
  - intros (category & w1 & t1 & w2 & t2 & answer & t3
            & Hc & Hi & Ha & -> & ->).
    rewrite run_bind, Hc, run_bind, Hi, run_bind, Ha. cbn.
    now rewrite app_nil_r.
Qed.

End Pipeline.

Section PipelineFailures.
Local Open Scope list_scope.
Variable E : Env.
Variable this : RAGImplementation.

(** X17. An error thrown by [processQuery] is the error of the first
    stage that throws, as that stage threw it: the [catch] block adds
    nothing and no later stage runs. *)
Theorem processQuery_failure_origin (contextText query : string)
  (w w' : World E) (error : Error) (tr : list Event) :
  run E (processQuery this contextText query) w = (inl error, w', tr) ->
  run E (classifyQuery this query) w = (inl error, w', tr)
  \/ exists category w1 t1,
       run E (classifyQuery this query) w = (inr category, w1, t1)
       /\ ((exists t2,
              run E (createVectorStore this contextText) w1
              = (inl error, w', t2)
              /\ tr = t1 ++ t2)
           \/ exists w2 t2 t3,
                run E (createVectorStore this contextText) w1
                = (inr tt, w2, t2)
                /\ run E (getBotResponse this query) w2 = (inl error, w', t3)
                /\ tr = t1 ++ t2 ++ t3).
Proof.
  unfold processQuery. rewrite run_rethrow, run_bind.
  destruct (run E (classifyQuery this query) w) as [[[e|category] w1] t1].
  - intros H. injection H as -> -> ->. now left.
  - rewrite run_bind.
    destruct (run E (createVectorStore this contextText) w1)
      as [[[e|[]] w2] t2] eqn:Hindex.
    + intros H. injection H as -> -> <-. right.
      exists category, w1, t1. split; [reflexivity|]. left.
      exists t2. now split.
    + rewrite run_bind.
      destruct (run E (getBotResponse this query) w2)
        as [[[e|answer] w3] t3] eqn:Hanswer; cbn; intros H;
        [|discriminate H].
      injection H as -> -> <-. right.
      exists category, w1, t1. split; [reflexivity|]. right.
      exists w2, t2, t3. now repeat split.
Qed.

Lemma everyOther_cons {A} (x : A) (l : list A) :
  everyOther (x :: l) = x :: everyOther (tl l).
Proof. destruct l; reflexivity. Qed.

Lemma makePoints_clock_from (embeds : list Vector) (texts : list string) :
  forall (i : nat) (w : World E) pts w1 tr,
    run E (makePoints embeds texts i) w = (inr pts, w1, tr) ->
    map id pts
    = map (fun '(base, k) => (base + Z.of_nat k)%Z)
          (combine (everyOther (clockReadings tr)) (seq i (length texts)))
    /\ map (fun p => timestamp (payload p)) pts
       = everyOther (tl (clockReadings tr))
    /\ length (clockReadings tr) = 2 * length texts.
Proof.
  induction texts as [|t rest IH]; intros i w pts w1 tr Hrun.
  - cbn in Hrun. injection Hrun as <- _ <-. now repeat split.
  - cbn [makePoints run] in Hrun. destruct (clock E w) as [now w2].
    destruct (nth_error embeds i) as [v|]; [|discriminate Hrun].
    cbn [run] in Hrun. destruct (clock E w2) as [stamp w3].
    rewrite run_bind in Hrun.
    destruct (run E (makePoints embeds rest (S i)) w3) as [[[e|ps] w4] tr']
      eqn:Hrest; [discriminate Hrun|].
    cbn [run] in Hrun. injection Hrun as <- _ <-.
    destruct (IH (S i) w3 ps w4 tr' Hrest) as (Hid & Hstamp & Hlen).
    rewrite app_nil_r.
    change (clockReadings (ClockRead now :: ClockRead stamp :: tr'))
      with (now :: stamp :: clockReadings tr').
    cbn [map id payload timestamp tl length seq].
    change (everyOther (now :: stamp :: clockReadings tr'))
      with (now :: everyOther (clockReadings tr')).
    cbn [combine map].
    rewrite everyOther_cons, Hid, Hstamp, Hlen. repeat split. lia.
Qed.

(** X18. The identifier of chunk [k] is the clock reading taken when
    its point is built, the reading number [2 k] of the call, plus [k],
    and its timestamp is the next reading; nothing else enters the
    identifier, neither the text nor the collection. *)
Theorem point_ids_from_clock (embeds : list Vector) (texts : list string)
  (w : World E) (pts : list Point) (w1 : World E) (tr : list Event) :
  run E (makePoints embeds texts 0) w = (inr pts, w1, tr) ->
  map id pts
  = map (fun '(base, k) => (base + Z.of_nat k)%Z)
        (combine (everyOther (clockReadings tr)) (seq 0 (length texts)))
  /\ map (fun p => timestamp (payload p)) pts
     = everyOther (tl (clockReadings tr))
  /\ length (clockReadings tr) = 2 * length texts.
Proof. apply makePoints_clock_from. Qed.

End PipelineFailures.

(** ** Further worked instances *)

Section FurtherInstances.
Import Fake Flaky.
Local Open Scope string_scope.

Lemma classifyQuery_provider_failure_witness :
  let w := outage chatDown (emptyWorld silent) in
  fst (fst (run flakyEnv (classifyQuery sampleRag "When is the midterm?") w))
  = inl unavailable.
Proof.
  cbv zeta.
  rewrite (@classifyQuery_provider_failure flakyEnv sampleRag
             "When is the midterm?" (outage chatDown (emptyWorld silent))
             unavailable (outage chatDown (emptyWorld silent)) eq_refl).
  reflexivity.
Defined.

(** The query cannot be embedded; the collection does not exist. *)
Lemma getBotResponse_failures_witness :
  fst (fst (run flakyEnv (getBotResponse sampleRag "When is the midterm?")
              (outage (embedDown "When is the midterm?") (emptyWorld silent))))
  = inl unavailable
  /\ run fakeEnv (getBotResponse sampleRag "When is the midterm?")
       (emptyWorld silent)
     = (inl notFound, emptyWorld silent,
        [Requested (EmbedQuery "When is the midterm?")
                   (GotVector (embed "When is the midterm?"));
         Requested (Search "custom-collection"
                      {| query_vector := embed "When is the midterm?";
                         limit := 3 |})
                   (Rejected notFound)]).
Proof.
  split.
  - rewrite (proj1 (@getBotResponse_failures flakyEnv sampleRag
                      "When is the midterm?"
                      (outage (embedDown "When is the midterm?")
                              (emptyWorld silent)))
               unavailable
               (outage (embedDown "When is the midterm?") (emptyWorld silent))
               eq_refl).
    reflexivity.
  - apply (proj2 (@getBotResponse_failures fakeEnv sampleRag
                    "When is the midterm?" (emptyWorld silent))
             (embed "When is the midterm?") (emptyWorld silent)
             notFound (emptyWorld silent));
      reflexivity.
Defined.

Lemma ensureCollection_without_vectors_witness :
  run fakeEnv (ensureCollection sampleRag 3) unsized
  = (inl (newError "Vector size mismatch. Expected: 3"), unsized,
     [Requested (GetCollection "custom-collection")
                (GotCollection {| vectors := None |})]).
Proof.
  apply (@ensureCollection_without_vectors fakeEnv sampleRag 3 unsized
           {| vectors := None |} unsized); reflexivity.
Defined.

Lemma ensureCollection_creates_only_on_404_witness :
  In (CreateCollection "custom-collection" (creation 3))
     (requestsOf (snd (run fakeEnv (ensureCollection sampleRag 3)
                         (emptyWorld silent))))
  /\ exists error w1,
       handle fakeEnv (GetCollection "custom-collection") (emptyWorld silent)
       = (inl error, w1)
       /\ status error = Some 404%Z.
Proof.
  assert (Hin : In (CreateCollection "custom-collection" (creation 3))
                   (requestsOf (snd (run fakeEnv (ensureCollection sampleRag 3)
                                       (emptyWorld silent))))).
  { right. left. reflexivity. }
  split; [exact Hin|].
  exact (proj2 (proj2 (@ensureCollection_creates_only_on_404 fakeEnv sampleRag
                         3 (emptyWorld silent) "custom-collection"
                         (creation 3) Hin))).
Defined.

Lemma ensureCollection_rethrows_witness :
  run flakyEnv (ensureCollection sampleRag 3)
    (outage lookupDown (emptyWorld silent))
  = (inl unavailable, outage lookupDown (emptyWorld silent),
     [Requested (GetCollection "custom-collection") (Rejected unavailable)]).
Proof.
  apply (@ensureCollection_rethrows flakyEnv sampleRag 3
           (outage lookupDown (emptyWorld silent)) unavailable
           (outage lookupDown (emptyWorld silent)));
    [reflexivity | discriminate].
Defined.

(** Optional fields given as empty strings. *)
Lemma constructor_fills_defaults_witness :
  exists this,
    constructor
      {| googleApiKey := Some "your-google-api-key";
         qdrantUrl := Some "your-qdrant-url";
         qdrantApiKey := Some "your-qdrant-api-key";
         groqApiKey := Some "your-groq-api-key";
         cfg_collectionName := Some EmptyString;
         cfg_fallbackResponse := Some EmptyString;
         cfg_prompts := Some {| new_classification := Some EmptyString;
                                new_response := None |} |}
    = inr this
    /\ collectionName this = "default_collection"
    /\ fallbackResponse this
       = "I could not find relevant information for your query."
    /\ classification (prompts this) = defaultClassificationPrompt
    /\ response (prompts this) = defaultResponsePrompt
    /\ qc_url (qdrantClient this) = "your-qdrant-url".
Proof.
  eexists. split; [reflexivity|].
  match goal with
  | |- collectionName ?t = _ /\ _ =>
      destruct (@constructor_fills_defaults
                  {| googleApiKey := Some "your-google-api-key";
                     qdrantUrl := Some "your-qdrant-url";
                     qdrantApiKey := Some "your-qdrant-api-key";
                     groqApiKey := Some "your-groq-api-key";
                     cfg_collectionName := Some EmptyString;
                     cfg_fallbackResponse := Some EmptyString;
                     cfg_prompts := Some {| new_classification := Some EmptyString;
                                            new_response := None |} |}
                  t eq_refl)
        as (_ & _ & Hname & Hfallback & Hprompts)
  end.
  destruct (Hprompts _ eq_refl) as [Hc Hr].
  split; [now apply Hname|]. split; [now apply Hfallback|].
  split; [apply Hc; now right|]. split; [apply Hr; now left|].
  reflexivity.
Defined.

Lemma prompt_without_placeholder_witness :
  let plain := updatePrompts sampleRag
                 {| new_classification := Some "Say general.";
                    new_response := Some "Answer briefly." |} in
  requestsOf (snd (run fakeEnv (classifyQuery plain "When is the midterm?")
                     (emptyWorld silent)))
  = [ChatCreate (singleTurn "Say general.")]
  /\ responsePrompt plain [manual] "When is the midterm?" = "Answer briefly.".
Proof.
  cbv zeta.
  pose (plain := updatePrompts sampleRag
                   {| new_classification := Some "Say general.";
                      new_response := Some "Answer briefly." |}).
  destruct (@prompt_without_placeholder fakeEnv plain "When is the midterm?"
              (emptyWorld silent) [manual]) as [Hclassify Hrespond].
  split; [now apply Hclassify | now apply Hrespond].
Defined.

Lemma createVectorStore_no_chunks_witness :
  run fakeEnv (createVectorStore sampleRag "Midterm exams are in October.")
    chunkless
  = (inl typeError, chunkless,
     [Requested (SplitText splitterOptions "Midterm exams are in October.")
                (GotTexts [])]).
Proof.
  apply (@createVectorStore_no_chunks fakeEnv sampleRag
           "Midterm exams are in October." chunkless chunkless);
    reflexivity.
Defined.

(** Two chunks, the second of which cannot be embedded: both embeddings
    are requested, the call throws, and the store is not contacted. *)
Lemma createVectorStore_embedding_failure_witness :
  let source := "Midterm exams are in October."
                ++ String "010" "Sports day is in November." in
  let w := outage (embedDown "Sports day is in November.") (emptyWorld silent) in
  fst (fst (run flakyEnv (createVectorStore sampleRag source) w))
  = inl unavailable
  /\ requestsOf (snd (run flakyEnv (createVectorStore sampleRag source) w))
     = [SplitText splitterOptions source;
        EmbedQuery "Midterm exams are in October.";
        EmbedQuery "Sports day is in November."].
Proof.
  cbv zeta.
  pose (source := "Midterm exams are in October."
                  ++ String "010" "Sports day is in November.").
  pose (w := outage (embedDown "Sports day is in November.") (emptyWorld silent)).
  destruct (@createVectorStore_embedding_failure flakyEnv sampleRag source w
              ["Midterm exams are in October."; "Sports day is in November."]
              w
              [inr (embed "Midterm exams are in October."); inl unavailable]
              w
              [embedEvent "Midterm exams are in October."
                          (inr (embed "Midterm exams are in October."));
               embedEvent "Sports day is in November." (inl unavailable)]
              unavailable eq_refl eq_refl eq_refl
              (or_intror (or_introl eq_refl)))
    as (thrown & Hin & Hrun & Hrequests).
  fold source. fold w. rewrite Hrun. cbn [fst snd]. split.
  - destruct Hin as [H|[H|[]]]; [discriminate H | now injection H as <-].
  - reflexivity.
Defined.

(** The stub embeddings have three components and the collection was
    created for 768. *)
Lemma createVectorStore_size_mismatch_witness :
  let source := "Midterm exams are in October." in
  fst (fst (run fakeEnv (createVectorStore sampleRag source) wide))
  = inl (newError "Vector size mismatch. Expected: 3")
  /\ requestsOf (snd (run fakeEnv (createVectorStore sampleRag source) wide))
     = [SplitText splitterOptions source; EmbedQuery source;
        GetCollection "custom-collection"].
Proof.
  cbv zeta.
  rewrite (@createVectorStore_size_mismatch fakeEnv sampleRag
             "Midterm exams are in October." wide
             ["Midterm exams are in October."] wide
             (embed "Midterm exams are in October.") [] wide
             [embedEvent "Midterm exams are in October."
                         (inr (embed "Midterm exams are in October."))]
             {| vectors := Some {| size := 768; distance := Cosine |} |}
             {| size := 768; distance := Cosine |} wide
             eq_refl eq_refl eq_refl eq_refl eq_refl);
    [split; reflexivity | discriminate].
Defined.

Lemma createVectorStore_success_witness :
  let source := "  Midterm exams are in October. "
                ++ String "010" "Sports day is in November." in
  let r := run fakeEnv (createVectorStore sampleRag source) (emptyWorld silent) in
  fst (fst r) = inr tt
  /\ map (fun p => text (payload p)) (upserted (snd r))
     = ["Midterm exams are in October."; "Sports day is in November."]
  /\ map vector (upserted (snd r))
     = [embed "  Midterm exams are in October. ";
        embed "Sports day is in November."]
  /\ map (fun p => chunkIndex (payload p)) (upserted (snd r)) = [0; 1]
  /\ NoDup (map id (upserted (snd r))).
Proof.
  cbv zeta.
  pose (source := "  Midterm exams are in October. "
                  ++ String "010" "Sports day is in November.").
  pose (r := run fakeEnv (createVectorStore sampleRag source) (emptyWorld silent)).
  assert (Hrun : run fakeEnv (createVectorStore sampleRag source)
                   (emptyWorld silent)
                 = (inr tt, snd (fst r), snd r)) by (vm_compute; reflexivity).
  destruct (@createVectorStore_success fakeEnv sampleRag source
              (emptyWorld silent) (snd (fst r)) (snd r) Hrun)
    as (_ & Htext & Hvec & Hidx & Hids).
  fold source. fold r. split; [reflexivity|].
  split; [rewrite Htext; reflexivity|].
  split; [rewrite Hvec; reflexivity|].
  split; [rewrite Hidx; reflexivity|].
  apply Hids. vm_compute. repeat constructor; discriminate.
Defined.

Lemma createVectorStore_requests_witness :
  let source := "Midterm exams are in October." in
  In (CreateCollection "custom-collection" (creation 3))
     (requestsOf (snd (run fakeEnv (createVectorStore sampleRag source)
                         (emptyWorld silent))))
  /\ indexingRequest "custom-collection" source
       (CreateCollection "custom-collection" (creation 3)).
Proof.
  cbv zeta.
  assert (Hin : In (CreateCollection "custom-collection" (creation 3))
                   (requestsOf
                      (snd (run fakeEnv
                              (createVectorStore sampleRag
                                 "Midterm exams are in October.")
                              (emptyWorld silent))))).
  { right. right. right. left. reflexivity. }
  split; [exact Hin|].
  exact (@createVectorStore_requests fakeEnv sampleRag
           "Midterm exams are in October." (emptyWorld silent)
           (CreateCollection "custom-collection" (creation 3)) Hin).
Defined.

Lemma processQuery_stops_at_classification_witness :
  let w := outage chatDown (emptyWorld silent) in
  run flakyEnv (processQuery sampleRag "Midterm exams are in October."
                  "When is the midterm?") w
  = (inl unavailable, w,
     [Requested (ChatCreate
                   (singleTurn (replace defaultClassificationPrompt "{query}"
                                        "When is the midterm?")))
                (Rejected unavailable)]).
Proof.
  cbv zeta.
  apply (@processQuery_stops_at_classification flakyEnv sampleRag
           "Midterm exams are in October." "When is the midterm?"
           (outage chatDown (emptyWorld silent)) unavailable
           (outage chatDown (emptyWorld silent))).
  reflexivity.
Defined.

Lemma processQuery_blank_context_witness :
  let w := emptyWorld (says (Some "general")) in
  allWhiteSpace "   " = true
  /\ fst (fst (run fakeEnv (processQuery sampleRag "   " "When is the midterm?") w))
     = inl (newError "No text provided for vector store creation")
  /\ length (requestsOf
               (snd (run fakeEnv
                       (processQuery sampleRag "   " "When is the midterm?") w)))
     = 1.
Proof.
  cbv zeta. split; [reflexivity|].
  rewrite (@processQuery_blank_context fakeEnv sampleRag "   "
             "When is the midterm?" (emptyWorld (says (Some "general")))
             (says (Some "general") (singleTurn EmptyString))
             (emptyWorld (says (Some "general"))) eq_refl eq_refl).
  split; reflexivity.
Defined.

(** The collection exists for another size: the pipeline throws what
    the indexing stage threw. *)
Lemma processQuery_failure_origin_witness :
  exists error w' tr category w1 t1 t2,
    run fakeEnv (processQuery sampleRag "Midterm exams are in October."
                   "When is the midterm?") wide
    = (inl error, w', tr)
    /\ run fakeEnv (classifyQuery sampleRag "When is the midterm?") wide
       = (inr category, w1, t1)
    /\ run fakeEnv (createVectorStore sampleRag "Midterm exams are in October.") w1
       = (inl error, w', t2)
    /\ error = newError "Vector size mismatch. Expected: 3".
Proof.
  pose (r := run fakeEnv (processQuery sampleRag "Midterm exams are in October."
                            "When is the midterm?") wide).
  assert (Hrun : run fakeEnv (processQuery sampleRag
                                "Midterm exams are in October."
                                "When is the midterm?") wide
                 = (inl (newError "Vector size mismatch. Expected: 3"),
                    snd (fst r), snd r)) by (vm_compute; reflexivity).
  destruct (@processQuery_failure_origin fakeEnv sampleRag
              "Midterm exams are in October." "When is the midterm?"
              wide (snd (fst r)) _ (snd r) Hrun)
    as [Hc|(category & w1 & t1 & Hc & [(t2 & Hi & _)|(w2 & t2 & t3 & Hi & _)])].
  - vm_compute in Hc. discriminate Hc.
  - exists (newError "Vector size mismatch. Expected: 3"), (snd (fst r)), (snd r),
      category, w1, t1, t2. now repeat split.
  - vm_compute in Hc. injection Hc as <- <- <-.
    vm_compute in Hi. discriminate Hi.
Defined.

Lemma point_ids_from_clock_witness :
  let texts := ["Midterm exams"; "are in"; "October."] in
  exists pts,
    fst (fst (run fakeEnv (makePoints (map embed texts) texts 0) ticking))
    = inr pts
    /\ map id pts = [1700000000000; 1700000000003; 1700000000006]%Z
    /\ map (fun p => timestamp (payload p)) pts
       = [1700000000001; 1700000000003; 1700000000005]%Z.
Proof.
  cbv zeta.
  pose (texts := ["Midterm exams"; "are in"; "October."]).
  pose (r := run fakeEnv (makePoints (map embed texts) texts 0) ticking).
  pose (pts := match fst (fst r) with inr ps => ps | inl _ => [] end).
  assert (Hrun : run fakeEnv (makePoints (map embed texts) texts 0) ticking
                 = (inr pts, snd (fst r), snd r)) by (vm_compute; reflexivity).
  destruct (@point_ids_from_clock fakeEnv (map embed texts) texts ticking
              pts (snd (fst r)) (snd r) Hrun) as (Hid & Hstamp & _).
  exists pts. split; [reflexivity|].
  split; [rewrite Hid | rewrite Hstamp]; reflexivity.
Defined.

End FurtherInstances.
